(** * Web-Scraping: the crawl-and-extract pipeline and its text helpers

    A shallow embedding of [src/utils.py], [src/ai_utils.py] and
    [src/scraper.py], followed by the properties stated about them.

    - A Python [str] is a sequence of Unicode code points: [list N].
    - The Unicode character database ([str.isalnum], [str.lower]) is not
      part of the repository; it is an interface ([Unicode]) whose laws fix
      its behaviour on ASCII.
    - The browser, the clock, the file system, the HTML parser and the
      iteration order of a Python [set] are the interface [Platform]; the
      effectful code runs in a state-and-exception monad that threads the
      platform's world and records a trace of events. *)

From Stdlib Require Import ZArith NArith Ascii String Lia DecimalString.
From stdpp Require Import base decidable option list gmap sets sorting.

Local Open Scope N_scope.

(** ** Python strings *)

Abbreviation pystr := (list N).

Definition ord (c : ascii) : N := N_of_ascii c.

(** A literal: the code points of an ASCII string. *)
Definition lit (s : string) : pystr := List.map ord (list_ascii_of_string s).

Definition is_ascii (c : N) : bool := c <? 128.

Definition ascii_isdigit (c : N) : bool := (48 <=? c) && (c <=? 57).
Definition ascii_isupper (c : N) : bool := (65 <=? c) && (c <=? 90).
Definition ascii_islower (c : N) : bool := (97 <=? c) && (c <=? 122).
Definition ascii_isalnum (c : N) : bool :=
  ascii_isdigit c || ascii_isupper c || ascii_islower c.
Definition ascii_lower (c : N) : N := if ascii_isupper c then c + 32 else c.

(** [c in chars] for a character [c] and a string [chars]. *)
Definition char_in (c : N) (chars : pystr) : bool := bool_decide (c ∈ chars).

(** [sep.join(parts)] *)
Fixpoint join (sep : pystr) (parts : list pystr) : pystr :=
  match parts with
  | [] => []
  | [p] => p
  | p :: ps => p ++ sep ++ join sep ps
  end.

(** [str(n)] for an [int]. *)
Definition str_of_Z (z : Z) : pystr := lit (NilZero.string_of_int (Z.to_int z)).

(** The part of the Unicode database the code relies on. *)
Class Unicode := {
  isalnum : N -> bool;
  lower : pystr -> pystr;
  isalnum_ascii : forall c, c < 128 -> isalnum c = ascii_isalnum c;
  lower_ascii : forall s, forallb is_ascii s = true -> lower s = List.map ascii_lower s
}.

(** The ASCII-only database: nothing above 127 is a letter or a digit. *)
#[program] Definition ascii_only : Unicode :=
  {| isalnum := ascii_isalnum; lower := List.map ascii_lower |}.
Solve All Obligations with done.

(** ** utils.py *)

Module Utils.
Section WithUnicode.
Context {U : Unicode}.

Definition SAVE_DIR : pystr := lit "scraped_txt".

(** [c if c.isalnum() or c in " -_." else "_"] *)
Definition keep_or_underscore (c : N) : N :=
  if isalnum c || char_in c (lit " -_.") then c else ord "_".

(** ["".join(... for c in name)[:100]] *)
Definition safe_filename (name : pystr) : pystr :=
  take 100 (List.map keep_or_underscore name).
End WithUnicode.
End Utils.

(** ** ai_utils.py: the lexical sentiment analyser *)

Module AiUtils.

Definition positive_words : gset pystr :=
  list_to_set (lit <$> ["good"; "great"; "excellent"; "positive"; "happy";
                        "success"; "benefit"]%string).
Definition negative_words : gset pystr :=
  list_to_set (lit <$> ["bad"; "terrible"; "sad"; "negative"; "failure";
                        "harm"; "angry"]%string).

(** [re.findall(r"\b\w+\b", s)]: the maximal runs of word characters, left
    to right.  [cur] is the run being read. *)
Definition flush (cur : pystr) : list pystr :=
  match cur with [] => [] | _ => [cur] end.

Fixpoint word_runs (isword : N -> bool) (cur s : pystr) : list pystr :=
  match s with
  | [] => flush cur
  | c :: s' =>
      if isword c then word_runs isword (cur ++ [c]) s'
      else flush cur ++ word_runs isword [] s'
  end.

(** The five-way classification of [sentiment_details]. *)
Definition mood (score : Z) : pystr :=
  if (3 <? score)%Z then lit "Strongly Positive"
  else if (0 <? score)%Z then lit "Positive"
  else if (score =? 0)%Z then lit "Neutral"
  else if (-3 <? score)%Z then lit "Negative"
  else lit "Strongly Negative".

Section WithUnicode.
Context {U : Unicode}.

(** [\w] of the [re] module on [str] patterns. *)
Definition isword (c : N) : bool := isalnum c || (c =? ord "_").

Definition findall_words (s : pystr) : list pystr := word_runs isword [] s.

(** One iteration of [for w in words]. *)
Definition score_word (score : Z) (w : pystr) : Z :=
  if bool_decide (w ∈ positive_words) then (score + 1)%Z
  else if bool_decide (w ∈ negative_words) then (score - 1)%Z
  else score.

Definition sentiment_weight (text : pystr) : Z :=
  let words := findall_words (lower text) in
  foldl score_word 0%Z words.

Definition sentiment_details (text : pystr) : pystr :=
  let score := sentiment_weight text in
  mood score ++ lit " (score " ++ str_of_Z score ++ lit ")".
End WithUnicode.

(** [Counter(words)]: one entry per distinct word, in the order of first
    occurrence, with the number of its occurrences. *)
Fixpoint counter_add (w : pystr) (c : list (pystr * nat)) : list (pystr * nat) :=
  match c with
  | [] => [(w, 1%nat)]
  | (k, n) :: c' =>
      if bool_decide (k = w) then (k, S n) :: c' else (k, n) :: counter_add w c'
  end.

Definition Counter (words : list pystr) : list (pystr * nat) :=
  foldl (fun c w => counter_add w c) [] words.

(** [most_common(n)]: the entries by decreasing count, entries of equal
    count in their order in the counter, cut after [n]; nothing for
    [n <= 0]. *)
Fixpoint insert_by_count (x : pystr * nat) (sorted : list (pystr * nat))
  : list (pystr * nat) :=
  match sorted with
  | [] => [x]
  | y :: sorted' =>
      if (x.2 <? y.2)%nat then y :: insert_by_count x sorted'
      else x :: y :: sorted'
  end.

Definition sort_by_count (c : list (pystr * nat)) : list (pystr * nat) :=
  foldr insert_by_count [] c.

Definition most_common (n : Z) (c : list (pystr * nat)) : list (pystr * nat) :=
  take (Z.to_nat n) (sort_by_count c).

Definition ascii_isalpha (c : N) : bool := ascii_isupper c || ascii_islower c.

Section Keywords.
Context {U : Unicode}.

(** [re.findall(r"\b[a-zA-Z]{3,}\b", s)]: a match starts and ends at a word
    boundary, so it is a whole run of word characters; the runs made of
    three or more ASCII letters are the matches. *)
Definition is_keyword (run : pystr) : bool :=
  forallb ascii_isalpha run && (3 <=? length run)%nat.

Definition findall_keywords (s : pystr) : list pystr :=
  List.filter is_keyword (word_runs isword [] s).

Definition keyword_density (text : pystr) (top_n : Z) : list pystr :=
  let words := findall_keywords (lower text) in
  let freq := Counter words in
  (most_common top_n freq).*1.
End Keywords.
End AiUtils.

(** ** scraper.py: effects *)

Module Scraper.

(** The message of a Python exception ([str(e)]). *)
Abbreviation Exn := (list N).

(** What a run does to the outside world, in order.  [EvLevel] and
    [EvScrape] are control points (an iteration of the level loop begins,
    [scrape_article] is entered); [EvWrite] carries the URL whose
    [scrape_article] call performs the write. *)
Inductive Event :=
| EvLevel (level : Z)
| EvScrape (url : pystr)
| EvBrowser (url : pystr) (outcome : pystr + Exn)
| EvEmit (msg : pystr)
| EvPrint (msg : pystr)
| EvMakedirs (dir : pystr)
| EvHttpGet (src : pystr)
| EvWrite (url path text : pystr).

(** Everything outside the repository that [scraper.py] calls. [W] is the
    state of the outside world (network, clock, disk). *)
Class Platform (W : Type) := {
  (** playwright: launch, [goto(url)], [content()], close; or an exception *)
  page_content : pystr -> W -> (pystr + Exn) * W;
  (** [datetime.now().strftime("%Y-%m-%d_%H-%M-%S")] *)
  strftime_now : W -> pystr * W;
  (** [os.path.exists], [os.makedirs], [open(path, "w").write(text)] *)
  path_exists : pystr -> W -> bool;
  makedirs : pystr -> W -> option Exn * W;
  write_text : pystr -> pystr -> W -> option Exn * W;
  (** [requests.get(src, timeout=10).content] *)
  requests_get : pystr -> W -> (list N + Exn) * W;
  (** [pytesseract.image_to_string(Image.open(io.BytesIO(b)))] *)
  image_to_string : list N -> pystr + Exn;
  (** [str.strip] *)
  strip : pystr -> pystr;
  (** bs4: the stripped text of the first title element; the stripped text
      of every paragraph; the [href] of every anchor that has one; the
      [src] of every image that has one; all in document order *)
  soup_title : pystr -> option pystr;
  soup_p : pystr -> list pystr;
  soup_a_href : pystr -> list pystr;
  soup_img_src : pystr -> list pystr;
  (** [urllib.parse.urljoin]; a URL it cannot parse raises [ValueError] *)
  urljoin : pystr -> pystr -> pystr + Exn;
  (** the order in which a [set] built by the given sequence of [add]
      calls is iterated: each member once, in an order the interpreter
      chooses *)
  set_iter : list pystr -> list pystr;
  set_iter_NoDup : forall l, NoDup (set_iter l);
  set_iter_elem : forall l x, x ∈ set_iter l <-> x ∈ l
}.

Record State (W : Type) := mkState { world : W; trace : list Event }.
Arguments mkState {W}.
Arguments world {W}.
Arguments trace {W}.

Inductive Outcome (A : Type) :=
| Ok (a : A)
| Raised (e : Exn).
Arguments Ok {A}.
Arguments Raised {A}.

(** State and exceptions: the state reached when an exception is raised is
    kept, as the effects of a Python [try] block are. *)
Definition M (W A : Type) : Type := State W -> Outcome A * State W.

Definition ret {W A} (a : A) : M W A := fun s => (Ok a, s).

Definition bind {W A B} (m : M W A) (k : A -> M W B) : M W B :=
  fun s => match m s with
           | (Ok a, s') => k a s'
           | (Raised e, s') => (Raised e, s')
           end.

Definition try_except {W A} (m : M W A) (handler : Exn -> M W A) : M W A :=
  fun s => match m s with
           | (Ok a, s') => (Ok a, s')
           | (Raised e, s') => handler e s'
           end.

Definition tell {W} (ev : Event) : M W unit :=
  fun s => (Ok tt, mkState (world s) (trace s ++ [ev])).

(** A call that has no effect but may raise. *)
Definition call {W A} (o : Outcome A) : M W A := fun s => (o, s).

Declare Scope py_scope.
Delimit Scope py_scope with py.
Notation "x <- m ;; k" := (bind m (fun x => k))
  (at level 100, m at next level, right associativity) : py_scope.
Notation "m ;;; k" := (bind m (fun _ => k))
  (at level 100, right associativity) : py_scope.
Local Open Scope py_scope.

Definition nl : pystr := [10%N].

(** Truthiness of [html] in [if not html]: [None] and the empty string are
    falsy. *)
Definition truthy (html : option pystr) : option pystr :=
  match html with
  | Some (c :: h) => Some (c :: h)
  | _ => None
  end.

(** [os.path.join(a, b)] for a relative [b]. *)
Definition path_join (a b : pystr) : pystr := a ++ lit "/" ++ b.

(** [range(depth)] *)
Definition range (depth : Z) : list Z := Z.of_nat <$> seq 0 (Z.to_nat depth).

(** The exit of the per-URL loop: [return total_files] from inside it, or
    its normal end. *)
Inductive LoopExit :=
| Returned (total_files : Z)
| Completed (visited : gset pystr) (total_files : Z) (next_links : list pystr).

Section WithPlatform.
Context {U : Unicode} {W : Type} {P : Platform W}.

Definition SAVE_DIR : pystr := lit "scraped_txt".

Definition get_timestamp : M W pystr :=
  fun s => let (ts, w) := strftime_now (world s) in (Ok ts, mkState w (trace s)).

Definition safe_filename (name : pystr) : pystr :=
  take 100 (List.map (fun c => if isalnum c || char_in c (lit " -_.") then c else ord "_") name).

(** The browser session inside the [try] of [fetch_page_playwright]. *)
Definition browser_session (url : pystr) : M W pystr :=
  fun s => let (r, w) := page_content url (world s) in
           let s' := mkState w (trace s ++ [EvBrowser url r]) in
           match r with
           | inl html => (Ok html, s')
           | inr e => (Raised e, s')
           end.

Definition fetch_failed (url : pystr) (e : Exn) : pystr :=
  lit "[ERROR] Playwright fetch failed for " ++ url ++ lit ": " ++ e.

Definition fetch_page_playwright (url : pystr) (log_signal : bool)
  : M W (option pystr) :=
  try_except
    (html <- browser_session url ;; ret (Some html))
    (fun e =>
       (if log_signal then tell (EvEmit (fetch_failed url e ++ nl))
        else tell (EvPrint (fetch_failed url e))) ;;;
       ret None).

Definition extract_text_from_image (img_bytes : list N) : M W pystr :=
  match image_to_string img_bytes with
  | inl text => ret (strip text)
  | inr e => tell (EvPrint (lit "OCR failed: " ++ e)) ;;; ret []
  end.

Definition starts_with_http (url : pystr) : bool :=
  bool_decide (take 4 url = lit "http").

(** [urljoin(base, href)], with its exception. *)
Definition resolve (base href : pystr) : Outcome pystr :=
  match urljoin base href with
  | inl url => Ok url
  | inr e => Raised e
  end.

(** [for a in soup.find_all("a", href=True)].  The [set] being built is the
    sequence of its [add] calls; an exception of [urljoin] ends the loop
    and the function. *)
Fixpoint for_a (base_url : pystr) (hrefs links : list pystr)
  : Outcome (list pystr) :=
  match hrefs with
  | [] => Ok links
  | href :: hrefs' =>
      match resolve base_url href with
      | Ok url =>
          for_a base_url hrefs'
            (if starts_with_http url then links ++ [url] else links)
      | Raised e => Raised e
      end
  end.

Definition extract_links (base_url soup : pystr) : Outcome (list pystr) :=
  for_a base_url (soup_a_href soup) [].

Definition log (log_signal : bool) (msg : pystr) : M W unit :=
  if log_signal then tell (EvEmit msg) else tell (EvPrint msg).

Definition http_get (src : pystr) : M W (list N) :=
  fun s => let (r, w) := requests_get src (world s) in
           let s' := mkState w (trace s ++ [EvHttpGet src]) in
           match r with
           | inl content => (Ok content, s')
           | inr e => (Raised e, s')
           end.

Definition os_makedirs (dir : pystr) : M W unit :=
  fun s => let (r, w) := makedirs dir (world s) in
           match r with
           | None => (Ok tt, mkState w (trace s ++ [EvMakedirs dir]))
           | Some e => (Raised e, mkState w (trace s))
           end.

Definition write_file (url path text : pystr) : M W unit :=
  fun s => let (r, w) := write_text path text (world s) in
           match r with
           | None => (Ok tt, mkState w (trace s ++ [EvWrite url path text]))
           | Some e => (Raised e, mkState w (trace s))
           end.

(** ** scraper.py: one page *)

(** The body of [for img in soup.find_all("img", src=True)]. *)
Definition image_block (src img_text : pystr) : pystr :=
  lit "Image text from " ++ src ++ lit ":" ++ nl ++ img_text ++ nl.

Definition ocr_warning (src : pystr) (e : Exn) : pystr :=
  lit "[WARNING] OCR failed for " ++ src ++ lit ": " ++ e ++ nl.

Fixpoint for_img (url : pystr) (log_signal : bool) (srcs : list pystr)
    (img_texts : list pystr) : M W (list pystr) :=
  match srcs with
  | [] => ret img_texts
  | src :: srcs' =>
      src <- call (resolve url src) ;;
      img_texts <-
        try_except
          (content <- http_get src ;;
           img_text <- extract_text_from_image content ;;
           ret (match img_text with
                | [] => img_texts
                | _ => img_texts ++ [image_block src img_text]
                end))
          (fun e => log log_signal (ocr_warning src e) ;;; ret img_texts) ;;
      for_img url log_signal srcs' img_texts
  end.

(** [f"{safe_filename(title)}_{get_timestamp()}.txt"] *)
Definition article_filename (title ts : pystr) : pystr :=
  safe_filename title ++ lit "_" ++ ts ++ lit ".txt".

Definition page_title (soup : pystr) : pystr :=
  default (lit "untitled") (soup_title soup).

Definition nonempty (s : pystr) : bool :=
  match s with [] => false | _ => true end.

Definition article_text (title url ts text_content : pystr) : pystr :=
  lit "Title: " ++ title ++ nl ++ lit "URL: " ++ url ++ nl
  ++ lit "Timestamp: " ++ ts ++ nl ++ nl
  ++ lit "ARTICLE TEXT:" ++ nl ++ text_content ++ nl ++ nl.

Definition saved_message (filepath : pystr) : pystr :=
  lit "[INFO] Saved article text to " ++ filepath ++ nl.

Definition scrape_article (url : pystr) (keywords : list pystr)
    (ocr_images log_signal : bool) : M W (option pystr) :=
  tell (EvScrape url) ;;;
  (fun s => if path_exists SAVE_DIR (world s) then ret tt s
            else os_makedirs SAVE_DIR s) ;;;
  html <- fetch_page_playwright url log_signal ;;
  match truthy html with
  | None => ret None
  | Some soup =>
      let title := page_title soup in
      ts <- get_timestamp ;;
      let filename := article_filename title ts in
      let filepath := path_join SAVE_DIR filename in
      let text_content := join nl (List.filter nonempty (soup_p soup)) in
      ts' <- get_timestamp ;;
      let result_text := article_text title url ts' text_content in
      result_text <-
        (if ocr_images then
           img_texts <- for_img url log_signal (soup_img_src soup) [] ;;
           ret (match img_texts with
                | [] => result_text
                | _ => result_text ++ lit "IMAGE TEXTS:" ++ nl ++ join nl img_texts
                end)
         else ret result_text) ;;
      write_file url filepath result_text ;;;
      log log_signal (saved_message filepath) ;;;
      ret (Some filepath)
  end.

(** ** scraper.py: the crawl *)

Definition level_message (level depth : Z) : pystr :=
  lit "[INFO] Crawl Level " ++ str_of_Z (level + 1) ++ lit "/"
  ++ str_of_Z depth ++ nl.

Definition limit_message : pystr := lit "[INFO] Page limit (50) reached." ++ nl.

(** [for url in to_visit] *)
Fixpoint for_url (keywords : list pystr) (ocr_images log_signal : bool)
    (to_visit : list pystr) (visited : gset pystr) (total_files : Z)
    (next_links : list pystr) : M W LoopExit :=
  match to_visit with
  | [] => ret (Completed visited total_files next_links)
  | url :: rest =>
      if bool_decide (url ∈ visited) then
        for_url keywords ocr_images log_signal rest visited total_files next_links
      else
        let visited := {[url]} ∪ visited in
        saved_file <- scrape_article url keywords ocr_images log_signal ;;
        let total_files :=
          match saved_file with
          | Some _ => (total_files + 1)%Z
          | None => total_files
          end in
        html <- fetch_page_playwright url log_signal ;;
        match truthy html with
        | None =>
            for_url keywords ocr_images log_signal rest visited total_files next_links
        | Some soup =>
            links <- call (extract_links url soup) ;;
            let next_links := next_links ++ set_iter links in
            if (50 <=? total_files)%Z then
              (if log_signal then tell (EvEmit limit_message) else ret tt) ;;;
              ret (Returned total_files)
            else
              for_url keywords ocr_images log_signal rest visited total_files next_links
        end
  end.

(** [for level in range(depth)], from the state at the head of an
    iteration. *)
Fixpoint for_level (keywords : list pystr) (depth : Z)
    (ocr_images log_signal : bool) (levels : list Z) (to_visit : list pystr)
    (visited : gset pystr) (total_files : Z) : M W Z :=
  match levels with
  | [] => ret total_files
  | level :: levels' =>
      tell (EvLevel level) ;;;
      (if log_signal then tell (EvEmit (level_message level depth)) else ret tt) ;;;
      exit <- for_url keywords ocr_images log_signal to_visit visited total_files [] ;;
      match exit with
      | Returned total_files => ret total_files
      | Completed visited total_files next_links =>
          for_level keywords depth ocr_images log_signal levels' next_links
            visited total_files
      end
  end.

Definition run_scraper (start_url : pystr) (keywords : list pystr) (depth : Z)
    (ocr_images log_signal : bool) : M W Z :=
  for_level keywords depth ocr_images log_signal (range depth) [start_url] ∅ 0%Z.

(** A run from a world, with an empty trace. *)
Definition run {A} (m : M W A) (w : W) : Outcome A * State W := m (mkState w []).

End WithPlatform.
End Scraper.

(** ** gui.py: the worker thread of a crawl *)

Module Gui.
Import Scraper.
Local Open Scope py_scope.

Section WithPlatform.
Context {U : Unicode} {W : Type} {P : Platform W}.

(** [ScraperThread.run].  The thread hands its [log_signal] to the crawl
    and leaves [ocr_images] at its default; the value given here is the
    argument of [done_signal.emit]. *)
Definition ScraperThread_run (url : pystr) (keywords : list pystr) (depth : Z)
  : M W Z :=
  try_except
    (result <- run_scraper url keywords depth false true ;;
     ret (if (result =? 0)%Z then 0%Z else 1%Z))
    (fun e => tell (EvEmit (lit "[ERROR] " ++ e ++ nl)) ;;; ret 0%Z).

End WithPlatform.
End Gui.

(** ** Observations on traces *)

Module Trace.
Import Scraper.

Definition levels (tr : list Event) : list Z :=
  omap (fun ev => match ev with EvLevel l => Some l | _ => None end) tr.

(** URLs on which [scrape_article] was entered. *)
Definition scraped (tr : list Event) : list pystr :=
  omap (fun ev => match ev with EvScrape u => Some u | _ => None end) tr.

(** URLs on which a browser session was run. *)
Definition rendered (tr : list Event) : list pystr :=
  omap (fun ev => match ev with EvBrowser u _ => Some u | _ => None end) tr.

(** URLs for which an output file was written. *)
Definition written (tr : list Event) : list pystr :=
  omap (fun ev => match ev with EvWrite u _ _ => Some u | _ => None end) tr.

(** Number of occurrences of [u] in [l]. *)
Fixpoint occ (u : pystr) (l : list pystr) : nat :=
  match l with
  | [] => 0
  | x :: l' => (if bool_decide (x = u) then 1 else 0) + occ u l'
  end.

(** Browser sessions with their outcomes. *)
Definition renders (tr : list Event) : list (pystr * (pystr + Exn)) :=
  omap (fun ev => match ev with EvBrowser u r => Some (u, r) | _ => None end) tr.

(** Files written: URL, path and text. *)
Definition writes (tr : list Event) : list (pystr * pystr * pystr) :=
  omap (fun ev => match ev with EvWrite u p t => Some (u, p, t) | _ => None end) tr.

(** Image downloads attempted. *)
Definition gets (tr : list Event) : list pystr :=
  omap (fun ev => match ev with EvHttpGet src => Some src | _ => None end) tr.

(** [not html] for the outcome of a browser session: an exception or empty
    markup. *)
Definition falsy (r : pystr + Exn) : bool :=
  match r with
  | inl (_ :: _) => false
  | _ => true
  end.

Definition failed_renders (tr : list Event) : nat :=
  length (List.filter (fun render => falsy render.2) (renders tr)).

(** Events that are neither control points, nor browser sessions, nor
    writes. *)
Definition quiet (ev : Event) : bool :=
  match ev with
  | EvEmit _ | EvPrint _ | EvMakedirs _ | EvHttpGet _ => true
  | _ => false
  end.

End Trace.

(** ** A scripted platform

    Worlds are the number of browser sessions run so far.  [site n url] is
    the outcome of session number [n] on [url]; [titles] and [anchors] play
    the HTML parser; the clock is stopped, the disk always accepts, pages
    have no paragraphs and no images, and every [href] is absolute and
    well formed. *)

Module Scripted.
Import Scraper.

Definition frozen_clock : pystr := lit "2024-01-01_00-00-00".

Definition scripted (site : nat -> pystr -> pystr + Exn)
    (titles : pystr -> option pystr) (anchors : pystr -> list pystr)
    (iter : list pystr -> list pystr)
    (iter_NoDup : forall l, NoDup (iter l))
    (iter_elem : forall l x, x ∈ iter l <-> x ∈ l) : Platform nat :=
  {| page_content := fun url n => (site n url, S n);
     strftime_now := fun n => (frozen_clock, n);
     path_exists := fun _ _ => true;
     makedirs := fun _ n => (None, n);
     write_text := fun _ _ n => (None, n);
     requests_get := fun _ n => (inr (lit "ConnectionError"), n);
     image_to_string := fun _ => inr (lit "UnidentifiedImageError");
     strip := fun s => s;
     soup_title := titles;
     soup_p := fun _ => [];
     soup_a_href := anchors;
     soup_img_src := fun _ => [];
     urljoin := fun _ href => inl href;
     set_iter := iter;
     set_iter_NoDup := iter_NoDup;
     set_iter_elem := iter_elem |}.

Definition start_url : pystr := lit "http://site/".
Definition page_url (i : nat) : pystr := lit "http://site/p" ++ str_of_Z (Z.of_nat i).

Definition index_markup : pystr := lit "<index>".
Definition leaf_markup : pystr := lit "<leaf>".

Definition markup_of (url : pystr) : pystr :=
  if bool_decide (url = start_url) then index_markup else leaf_markup.

(** A site whose index page links to pages 1..[n], which link nowhere. *)
Definition index_anchors (n : nat) (soup : pystr) : list pystr :=
  if bool_decide (soup = index_markup) then page_url <$> seq 1 n else [].

Definition page_titles (soup : pystr) : option pystr := Some (lit "Page").

(** Every session succeeds. *)
Definition reliable (n : nat) (url : pystr) : pystr + Exn := inl (markup_of url).

(** Sessions 0 and 1 (the two renders of the first URL) succeed; after
    that every second session, the link-discovery render of each new URL,
    times out. *)
Definition flaky (n : nat) (url : pystr) : pystr + Exn :=
  if (1 <? n)%nat && Nat.odd n then inr (lit "Timeout 60000ms exceeded.")
  else inl (markup_of url).

(** No session ever succeeds. *)
Definition offline (n : nat) (url : pystr) : pystr + Exn :=
  inr (lit "net::ERR_INTERNET_DISCONNECTED").

Definition wide_flaky_site : Platform nat :=
  scripted flaky page_titles (index_anchors 60) remove_dups
    (@NoDup_remove_dups _ _) (fun l x => elem_of_remove_dups l x).

Definition offline_site : Platform nat :=
  scripted offline page_titles (index_anchors 0) remove_dups
    (@NoDup_remove_dups _ _) (fun l x => elem_of_remove_dups l x).

(** An index page whose anchors are, in document order, b, a, b. *)
Definition link_a : pystr := lit "http://site/a".
Definition link_b : pystr := lit "http://site/b".
Definition bab_anchors (soup : pystr) : list pystr :=
  if bool_decide (soup = index_markup) then [link_b; link_a; link_b] else [].

Definition bab_site : Platform nat :=
  scripted reliable page_titles bab_anchors remove_dups
    (@NoDup_remove_dups _ _) (fun l x => elem_of_remove_dups l x).

Definition hello_titles (soup : pystr) : option pystr :=
  Some (lit "Hello, World! <Test>").

Definition hello_site : Platform nat :=
  scripted reliable hello_titles (index_anchors 0) remove_dups
    (@NoDup_remove_dups _ _) (fun l x => elem_of_remove_dups l x).

(** A site whose index page links to pages 1..52.  Every session succeeds
    but two: session 99, the link-discovery render of page 49, and session
    100, the extraction render of page 50. *)
Definition late_failures (n : nat) (url : pystr) : pystr + Exn :=
  if bool_decide (n = 99%nat \/ n = 100%nat)
  then inr (lit "Timeout 60000ms exceeded.")
  else inl (markup_of url).

Definition late_failure_site : Platform nat :=
  scripted late_failures page_titles (index_anchors 52) remove_dups
    (@NoDup_remove_dups _ _) (fun l x => elem_of_remove_dups l x).

(** A page with three images: the first reads "SALE", the second cannot be
    downloaded, the third is blank. *)
Definition media_images (soup : pystr) : list pystr :=
  [lit "http://site/sale.png"; lit "http://site/gone.png"; lit "http://site/blank.png"].

Definition media_download (src : pystr) (n : nat) : (list N + Exn) * nat :=
  if bool_decide (src = lit "http://site/gone.png")
  then (inr (lit "404 Client Error"), n)
  else (inl src, n).

Definition media_ocr (content : list N) : pystr + Exn :=
  if bool_decide (content = lit "http://site/sale.png") then inl (lit "SALE")
  else inl [].

Definition media_site : Platform nat :=
  {| page_content := fun url n => (reliable n url, S n);
     strftime_now := fun n => (frozen_clock, n);
     path_exists := fun _ _ => true;
     makedirs := fun _ n => (None, n);
     write_text := fun _ _ n => (None, n);
     requests_get := media_download;
     image_to_string := media_ocr;
     strip := fun s => s;
     soup_title := page_titles;
     soup_p := fun _ => [lit "First."; []; lit "Second."];
     soup_a_href := fun _ => [];
     soup_img_src := media_images;
     urljoin := fun _ href => inl href;
     set_iter := remove_dups;
     set_iter_NoDup := @NoDup_remove_dups _ _;
     set_iter_elem := fun l x => elem_of_remove_dups l x |}.

(** The index page of [bab_site] with one more anchor, which [urljoin]
    rejects. *)
Definition bad_href : pystr := lit "http://[site/c".

Definition strict_urljoin (base href : pystr) : pystr + Exn :=
  if bool_decide (href = bad_href) then inr (lit "Invalid IPv6 URL")
  else inl href.

Definition bad_anchors (soup : pystr) : list pystr :=
  if bool_decide (soup = index_markup) then [link_b; link_a; bad_href; link_b]
  else [].

Definition bad_href_site : Platform nat :=
  {| page_content := fun url n => (reliable n url, S n);
     strftime_now := fun n => (frozen_clock, n);
     path_exists := fun _ _ => true;
     makedirs := fun _ n => (None, n);
     write_text := fun _ _ n => (None, n);
     requests_get := fun _ n => (inr (lit "ConnectionError"), n);
     image_to_string := fun _ => inr (lit "UnidentifiedImageError");
     strip := fun s => s;
     soup_title := page_titles;
     soup_p := fun _ => [];
     soup_a_href := bad_anchors;
     soup_img_src := fun _ => [];
     urljoin := strict_urljoin;
     set_iter := remove_dups;
     set_iter_NoDup := @NoDup_remove_dups _ _;
     set_iter_elem := fun l x => elem_of_remove_dups l x |}.

(** A page whose title is one hundred letters "a". *)
Definition long_title : pystr := replicate 100 (ord "a").
Definition long_titles (soup : pystr) : option pystr := Some long_title.

Definition long_title_site : Platform nat :=
  scripted reliable long_titles (index_anchors 0) remove_dups
    (@NoDup_remove_dups _ _) (fun l x => elem_of_remove_dups l x).

End Scripted.

(** ** Vocabulary of the statements *)

Module Spec.
Import Scraper Trace.

(** A file name without its four-character extension. *)
Definition stem (filename : pystr) : pystr := take (length filename - 4) filename.

Section WithUnicode.
Context {U : Unicode}.

(** The characters a sanitized name may hold: alphanumerics, space, and
    the characters "-", "_" and ".". *)
Definition allowed_char (c : N) : bool := isalnum c || char_in c (lit " -_.").

End WithUnicode.

(** The markup a browser session hands back, if any. *)
Definition markup_of_outcome (r : pystr + Exn) : option pystr :=
  match r with inl html => Some html | inr _ => None end.

(** What [fetch_page_playwright] reports after a session. *)
Definition fetch_report (url : pystr) (log_signal : bool) (r : pystr + Exn)
  : list Event :=
  match r with
  | inl _ => []
  | inr e => [if log_signal then EvEmit (fetch_failed url e ++ nl)
              else EvPrint (fetch_failed url e)]
  end.

(** The bookkeeping of the crawl agrees with what it did: every URL was
    scraped at most once and only if it is in [visited]; a URL was rendered
    at most twice and written at most once per scrape; [total_files] counts
    the files written. *)
Record consistent (visited : gset pystr) (total_files : Z) (tr : list Event)
  : Prop := {
  scraped_once : forall u, (occ u (scraped tr) <= 1)%nat;
  scraped_visited : forall u, u ∉ visited -> occ u (scraped tr) = 0%nat;
  rendered_twice : forall u, (occ u (rendered tr) <= 2 * occ u (scraped tr))%nat;
  written_once : forall u, (occ u (written tr) <= occ u (scraped tr))%nat;
  total_counts : total_files = Z.of_nat (length (written tr))
}.

Section WithPlatform.
Context {W : Type} {P : Platform W}.

(** The links one rendered page (URL, markup) contributes to the next
    frontier, as the code computes them. *)
Definition links_of (page : pystr * pystr) : list pystr :=
  match extract_links page.1 page.2 with
  | Ok links => set_iter links
  | Raised _ => []
  end.

(** The "http" links of a page in the document order of its anchors. *)
Definition document_links (page : pystr * pystr) : list pystr :=
  match extract_links page.1 page.2 with
  | Ok links => links
  | Raised _ => []
  end.

(** The frontier the pages would give if every page contributed its links
    in the document order of its anchors. *)
Definition frontier_in_document_order (pages : list (pystr * pystr)) : list pystr :=
  concat (document_links <$> pages).

(** The URLs of a frontier that the per-URL loop processes: those not yet
    visited, each at its first occurrence, in the order of the frontier. *)
Fixpoint fresh_urls (visited : gset pystr) (to_visit : list pystr) : list pystr :=
  match to_visit with
  | [] => []
  | url :: rest =>
      if bool_decide (url ∈ visited) then fresh_urls visited rest
      else url :: fresh_urls ({[url]} ∪ visited) rest
  end.

(** The group of links the link-discovery render [r2] of [url] adds to the
    next frontier: none without markup. *)
Definition group_of (url : pystr) (r2 : pystr + Exn) : list pystr :=
  match truthy (markup_of_outcome r2) with
  | Some soup => links_of (url, soup)
  | None => []
  end.

(** One URL processed by the per-URL loop, with the outcomes of its two
    browser sessions: the render of [scrape_article] and the
    link-discovery render. *)
Record Visit := mkVisit {
  visit_url : pystr;
  extraction_render : pystr + Exn;
  discovery_render : pystr + Exn
}.

Definition visit_renders (v : Visit) : list (pystr * (pystr + Exn)) :=
  [(visit_url v, extraction_render v); (visit_url v, discovery_render v)].

Definition visit_group (v : Visit) : list pystr :=
  group_of (visit_url v) (discovery_render v).

(** The sources of a list resolved against [url], up to the first one that
    [urljoin] rejects, and that exception. *)
Fixpoint resolve_all (url : pystr) (srcs : list pystr) : list pystr * option Exn :=
  match srcs with
  | [] => ([], None)
  | src :: srcs' =>
      match urljoin url src with
      | inl resolved =>
          let rest := resolve_all url srcs' in (resolved :: rest.1, rest.2)
      | inr e => ([], Some e)
      end
  end.

(** The text one image gives: the stripped OCR text of the downloaded
    bytes, unless the download fails, the OCR fails or the text is empty. *)
Definition ocr_text (r : list N + Exn) : option pystr :=
  match r with
  | inl content =>
      match image_to_string content with
      | inl text => match strip text with [] => None | t => Some t end
      | inr _ => None
      end
  | inr _ => None
  end.

(** One pass over resolved image sources: each is downloaded in turn and
    gives a block when it gives a text. *)
Fixpoint ocr_pass (srcs : list pystr) (w : W) : list pystr * W :=
  match srcs with
  | [] => ([], w)
  | src :: srcs' =>
      let r := requests_get src w in
      let rest := ocr_pass srcs' r.2 in
      (match ocr_text r.1 with
       | Some text => image_block src text :: rest.1
       | None => rest.1
       end, rest.2)
  end.

(** The directory step of [scrape_article] goes through from world [w]:
    it leaves world [w0] and the events [d0]. *)
Definition dir_ready (w w0 : W) (d0 : list Event) : Prop :=
  (path_exists SAVE_DIR w = true /\ w0 = w /\ d0 = [])
  \/ (path_exists SAVE_DIR w = false /\ makedirs SAVE_DIR w = (None, w0)
      /\ d0 = [EvMakedirs SAVE_DIR]).

(** The page the link-discovery render of [url] contributes, if any. *)
Definition pages_of (url : pystr) (r : pystr + Exn) : list (pystr * pystr) :=
  match truthy (markup_of_outcome r) with
  | Some soup => [(url, soup)]
  | None => []
  end.

(** The events [d] of an iteration of the per-URL loop that ended with an
    exception: of [scrape_article], before any write, or of the link
    extraction, after both renders. *)
Definition visit_raised (url : pystr) (d : list Event) : Prop :=
  levels d = [] /\ scraped d = [url]
  /\ ((written d = [] /\ (renders d = [] \/ exists r, renders d = [(url, r)]))
      \/ exists r1 r2,
           renders d = [(url, r1); (url, r2)]
           /\ written d = (if falsy r1 then [] else [url])).

(** The events [d] of an iteration that reached its end: the render [r1] of
    [scrape_article], the link-discovery render [r2], the new count and the
    page that contributes links. *)
Definition visit_done (url : pystr) (total_files : Z) (d : list Event)
    (total1 : Z) (pages : list (pystr * pystr)) : Prop :=
  exists r1 r2,
    levels d = [] /\ scraped d = [url]
    /\ renders d = [(url, r1); (url, r2)]
    /\ written d = (if falsy r1 then [] else [url])
    /\ total1 = (total_files + Z.of_nat (length (written d)))%Z
    /\ pages = pages_of url r2.

(** The events at the head of an iteration of the level loop. *)
Definition level_header (level : Z) (d : list Event) : Prop :=
  levels d = [level] /\ scraped d = [] /\ renders d = [] /\ written d = [].

End WithPlatform.

(** Number of the words that are in a lexicon. *)
Definition count_in (lexicon : gset pystr) (words : list pystr) : nat :=
  length (List.filter (fun w => bool_decide (w ∈ lexicon)) words).

(** The count a counter holds for a word; 0 when it has no entry. *)
Fixpoint counted (w : pystr) (c : list (pystr * nat)) : nat :=
  match c with
  | [] => 0
  | (k, n) :: c' => if bool_decide (k = w) then n else counted w c'
  end.

(** Entries by decreasing count. *)
Definition by_count (x y : pystr * nat) : Prop := (y.2 <= x.2)%nat.

(** [a] occurs at least as often as [b] among the words. *)
Definition as_frequent (words : list pystr) (a b : pystr) : Prop :=
  (occ b words <= occ a words)%nat.

(** The [IMAGE TEXTS] block of a saved page. *)
Definition with_image_texts (result_text : pystr) (img_texts : list pystr) : pystr :=
  match img_texts with
  | [] => result_text
  | _ => result_text ++ lit "IMAGE TEXTS:" ++ nl ++ join nl img_texts
  end.

End Spec.

(** * Properties *)

(** ** safe_filename *)

Module UtilsFacts.
Import Spec.
Section WithUnicode.
Context {U : Unicode}.

Lemma scraper_safe_filename_eq (name : pystr) :
  Scraper.safe_filename name = Utils.safe_filename name.
Proof. reflexivity. Qed.

Lemma keep_or_underscore_spec (c : N) :
  Utils.keep_or_underscore c = if allowed_char c then c else ord "_".
Proof. reflexivity. Qed.

Lemma keep_or_underscore_allowed (c : N) :
  allowed_char (Utils.keep_or_underscore c) = true.
Proof.
  rewrite keep_or_underscore_spec.
  destruct (allowed_char c) eqn:Hc; [exact Hc|].
  unfold allowed_char. apply orb_true_iff. right. by vm_compute.
Qed.

Lemma safe_filename_length (name : pystr) :
  length (Utils.safe_filename name) = Nat.min 100 (length name).
Proof.
  unfold Utils.safe_filename.
  rewrite length_take, length_map. reflexivity.
Qed.

Lemma safe_filename_lookup (name : pystr) (i : nat) :
  Utils.safe_filename name !! i =
    if decide (i < 100)%nat then Utils.keep_or_underscore <$> name !! i else None.
Proof.
  unfold Utils.safe_filename. case_decide as Hi.
  - rewrite lookup_take_lt by exact Hi. apply list_lookup_fmap.
  - apply lookup_take_ge. lia.
Qed.

(** C7. For every input string the output of [safe_filename] (the one of
    [utils.py] and the identical one of [scraper.py]) has at most 100
    characters, every one of them alphanumeric, a space, or one of "-",
    "_", "."; position by position it is the input character when that
    character is allowed and "_" otherwise, cut after 100 characters. *)
Theorem safe_filename_bounded_and_clean (name : pystr) :
  (length (Utils.safe_filename name) <= 100)%nat
  /\ forallb allowed_char (Utils.safe_filename name) = true
  /\ (forall i, Utils.safe_filename name !! i =
        if decide (i < 100)%nat
        then (fun c => if allowed_char c then c else ord "_") <$> name !! i
        else None)
  /\ Scraper.safe_filename name = Utils.safe_filename name.
Proof.
  split; [rewrite safe_filename_length; lia|].
  split; [|split; [|reflexivity]].
  - apply forallb_forall. intros c Hc.
    apply list_elem_of_In in Hc. unfold Utils.safe_filename in Hc.
    apply elem_of_take in Hc as (i & Hi & _).
    apply list_lookup_fmap_Some in Hi as (c0 & -> & _).
    apply keep_or_underscore_allowed.
  - intros i. apply safe_filename_lookup.
Qed.

End WithUnicode.
End UtilsFacts.

(** ** Sentiment scoring *)

Module AiUtilsFacts.
Import AiUtils.

(** The tokenizer only consults the word class on the characters it reads. *)
Lemma word_runs_ext (f g : N -> bool) (s cur : pystr) :
  (forall c, c ∈ s -> f c = g c) -> word_runs f cur s = word_runs g cur s.
Proof.
  revert cur. induction s as [|c s IH]; intros cur Hfg; [reflexivity|].
  simpl. rewrite <- (Hfg c) by left.
  destruct (f c).
  - apply IH. intros c' Hc'. apply Hfg. by right.
  - f_equal. apply IH. intros c' Hc'. apply Hfg. by right.
Qed.

Lemma is_ascii_lt (c : N) : is_ascii c = true <-> c < 128.
Proof. unfold is_ascii. apply N.ltb_lt. Qed.

Lemma ascii_lower_is_ascii (c : N) : c < 128 -> ascii_lower c < 128.
Proof.
  unfold ascii_lower, ascii_isupper. intros Hc.
  destruct (65 <=? c) eqn:H1, (c <=? 90) eqn:H2; simpl; try exact Hc.
  apply N.leb_le in H2. lia.
Qed.

(** The five branches of [sentiment_details], as intervals. *)
Lemma mood_cases (score : Z) :
  mood score =
    if decide (3 < score)%Z then lit "Strongly Positive"
    else if decide (0 < score)%Z then lit "Positive"
    else if decide (score = 0)%Z then lit "Neutral"
    else if decide (-3 < score)%Z then lit "Negative"
    else lit "Strongly Negative".
Proof.
  unfold mood.
  repeat case_decide;
    repeat match goal with
    | |- context [(?a <? ?b)%Z] => destruct (Z.ltb_spec a b)
    | |- context [(?a =? ?b)%Z] => destruct (Z.eqb_spec a b)
    end; try reflexivity; lia.
Qed.

Section WithUnicode.
Context {U : Unicode}.

(** On ASCII text every Unicode database gives the score the ASCII tables
    give. *)
Lemma sentiment_weight_ascii (text : pystr) :
  forallb is_ascii text = true ->
  sentiment_weight text = sentiment_weight (U := ascii_only) text.
Proof.
  intros Hascii. unfold sentiment_weight, findall_words.
  rewrite (lower_ascii text Hascii).
  rewrite (lower_ascii (Unicode := ascii_only) text Hascii).
  f_equal. apply word_runs_ext. intros c Hc.
  apply list_elem_of_fmap in Hc as (c0 & -> & Hc0).
  unfold isword. f_equal. apply isalnum_ascii, ascii_lower_is_ascii.
  apply is_ascii_lt.
  rewrite forallb_forall in Hascii. apply Hascii.
  by apply list_elem_of_In.
Qed.

Lemma sentiment_details_of_weight (text : pystr) (score : Z) :
  sentiment_weight text = score ->
  sentiment_details text = mood score ++ lit " (score " ++ str_of_Z score ++ lit ")".
Proof. intros <-. reflexivity. Qed.

(** C9. With the default lexicons "This is a great and excellent success"
    scores exactly 3 and is reported as "Positive (score 3)"; and every text
    whose score is exactly 3 is classified "Positive", not "Strongly
    Positive". *)
Theorem score_three_is_positive (text : pystr) :
  sentiment_weight text = 3%Z ->
  sentiment_weight (lit "This is a great and excellent success") = 3%Z
  /\ sentiment_details (lit "This is a great and excellent success")
     = lit "Positive (score 3)"
  /\ mood (sentiment_weight text) = lit "Positive"
  /\ mood (sentiment_weight text) <> lit "Strongly Positive"
  /\ sentiment_details text = lit "Positive (score 3)".
Proof.
  intros H3.
  assert (Hex : sentiment_weight (lit "This is a great and excellent success") = 3%Z).
  { rewrite sentiment_weight_ascii by (by vm_compute). by vm_compute. }
  split; [exact Hex|].
  split; [by rewrite (sentiment_details_of_weight _ _ Hex)|].
  rewrite H3.
  split; [reflexivity|].
  split; [discriminate|].
  by rewrite (sentiment_details_of_weight _ _ H3).
Qed.

(** C10. The boundaries are asymmetric: a score of exactly +3 is
    "Positive" (the strong branch needs score > 3), while a score of
    exactly -3 is "Strongly Negative" (the "Negative" branch needs
    score > -3). *)
Theorem boundaries_asymmetric (text text' : pystr) :
  sentiment_weight text = 3%Z ->
  sentiment_weight text' = (-3)%Z ->
  sentiment_details text = lit "Positive (score 3)"
  /\ sentiment_details text' = lit "Strongly Negative (score -3)"
  /\ (forall score, mood score = lit "Strongly Positive" <-> (3 < score)%Z)
  /\ (forall score, mood score = lit "Negative" <-> (-3 < score < 0)%Z).
Proof.
  intros H3 Hm3.
  split; [by rewrite (sentiment_details_of_weight _ _ H3)|].
  split; [by rewrite (sentiment_details_of_weight _ _ Hm3)|].
  split; intros score; rewrite mood_cases;
    repeat case_decide; split; (discriminate || lia || reflexivity).
Qed.

End WithUnicode.

(** "good good good" scores 3. *)
Lemma score_three_is_positive_witness :
  sentiment_weight (U := ascii_only) (lit "good good good") = 3%Z
  /\ sentiment_details (U := ascii_only) (lit "good good good")
     = lit "Positive (score 3)".
Proof.
  split; [by vm_compute|].
  apply (score_three_is_positive (U := ascii_only) (lit "good good good")).
  by vm_compute.
Defined.

(** "Good, good; GOOD!" scores 3 and "bad, sad and angry" scores -3. *)
Lemma boundaries_asymmetric_witness :
  sentiment_details (U := ascii_only) (lit "Good, good; GOOD!")
    = lit "Positive (score 3)"
  /\ sentiment_details (U := ascii_only) (lit "bad, sad and angry")
    = lit "Strongly Negative (score -3)".
Proof.
  destruct (boundaries_asymmetric (U := ascii_only)
              (lit "Good, good; GOOD!") (lit "bad, sad and angry"))
    as (Hpos & Hneg & _); [by vm_compute | by vm_compute |].
  split; [exact Hpos | exact Hneg].
Defined.

End AiUtilsFacts.

(** ** Traces *)

Module TraceFacts.
Import Scraper Trace.

Lemma levels_app tr d : levels (tr ++ d) = levels tr ++ levels d.
Proof. apply omap_app. Qed.
Lemma scraped_app tr d : scraped (tr ++ d) = scraped tr ++ scraped d.
Proof. apply omap_app. Qed.
Lemma rendered_app tr d : rendered (tr ++ d) = rendered tr ++ rendered d.
Proof. apply omap_app. Qed.
Lemma written_app tr d : written (tr ++ d) = written tr ++ written d.
Proof. apply omap_app. Qed.

Lemma quiet_silent d :
  forallb quiet d = true ->
  levels d = [] /\ scraped d = [] /\ rendered d = [] /\ written d = [].
Proof.
  induction d as [|ev d IH]; [done|].
  simpl. intros [Hev Hd]%andb_true_iff.
  destruct (IH Hd) as (? & ? & ? & ?).
  destruct ev; try discriminate; done.
Qed.

Lemma occ_app u l k : occ u (l ++ k) = (occ u l + occ u k)%nat.
Proof. induction l as [|x l IH]; simpl; [done|]. rewrite IH. lia. Qed.

Lemma occ_not_elem u l : u ∉ l -> occ u l = 0%nat.
Proof.
  induction l as [|x l IH]; [done|].
  intros [Hne Hl]%not_elem_of_cons. simpl.
  rewrite bool_decide_false by congruence. by rewrite IH.
Qed.

Lemma occ_le_length u l : (occ u l <= length l)%nat.
Proof. induction l as [|x l IH]; simpl; [lia|]. case_bool_decide; lia. Qed.
End TraceFacts.

(** ** The crawl: traces and bookkeeping *)

Module CrawlFacts.
Import Scraper Trace Spec TraceFacts.
Section WithPlatform.
Context {U : Unicode} {W : Type} {P : Platform W}.

Lemma bind_unfold {A B} (m : M W A) (k : A -> M W B) s :
  bind m k s = match m s with
               | (Ok a, s') => k a s'
               | (Raised e, s') => (Raised e, s')
               end.
Proof. reflexivity. Qed.

Lemma fetch_page_playwright_spec url log_signal (s : State W) :
  fetch_page_playwright url log_signal s =
    (Ok (markup_of_outcome (page_content url (world s)).1),
     mkState (page_content url (world s)).2
       (trace s ++ EvBrowser url (page_content url (world s)).1
                :: fetch_report url log_signal (page_content url (world s)).1)).
Proof.
  unfold fetch_page_playwright, try_except, bind, browser_session, ret, tell.
  destruct (page_content url (world s)) as [[html|e] w']; simpl.
  - reflexivity.
  - destruct log_signal; simpl; by rewrite <- app_assoc.
Qed.

Lemma fetch_report_quiet url log_signal r :
  forallb quiet (fetch_report url log_signal r) = true.
Proof. destruct r, log_signal; reflexivity. Qed.

Lemma for_img_quiet url log_signal srcs img_texts (s : State W) :
  exists o w d,
    for_img url log_signal srcs img_texts s = (o, mkState w (trace s ++ d))
    /\ forallb quiet d = true.
Proof.
  revert img_texts s. induction srcs as [|src srcs IH]; intros img_texts s.
  - exists (Ok img_texts), (world s), []. rewrite app_nil_r. by destruct s.
  - simpl. rewrite bind_unfold. unfold call at 1, resolve.
    destruct (urljoin url src) as [resolved|e].
    2:{ exists (Raised e), (world s), []. rewrite app_nil_r. by destruct s. }
    rewrite bind_unfold.
    unfold try_except, bind, http_get, extract_text_from_image, log, tell, ret.
    destruct (requests_get _ _) as [[content|e] w1]; simpl.
    + destruct (image_to_string content) as [text|e]; simpl.
      * edestruct IH as (r & w & d & -> & Hd).
        exists r, w, (EvHttpGet resolved :: d). simpl.
        by rewrite <- app_assoc.
      * edestruct IH as (r & w & d & -> & Hd).
        eexists r, w, (_ :: _ :: d). simpl.
        rewrite <- !app_assoc. split; [reflexivity|]. exact Hd.
    + destruct log_signal; simpl;
        edestruct IH as (r & w & d & -> & Hd);
        eexists r, w, (_ :: _ :: d); simpl;
        rewrite <- !app_assoc; (split; [reflexivity|]); exact Hd.
Qed.

Ltac run_one :=
  match goal with
  | |- context [for_img ?u ?l ?srcs ?acc ?s] =>
      let H := fresh in
      let Hq := fresh "Hquiet" in
      destruct (for_img_quiet u l srcs acc s) as (? & ? & ? & H & Hq);
      rewrite H; clear H;
      apply quiet_silent in Hq as (? & ? & ? & ?)
  | |- context [fetch_page_playwright ?u ?l ?s] =>
      rewrite (fetch_page_playwright_spec u l s);
      let r := fresh "r" in
      destruct (page_content u (world s)) as [r ?]; cbn [fst snd];
      pose proof (quiet_silent _ (fetch_report_quiet u l r)) as (? & ? & ? & ?);
      destruct r
  | |- context [match ?x with _ => _ end] =>
      lazymatch x with
      | context [match _ with _ => _ end] => fail
      | _ => destruct x eqn:?
      end
  end; cbn [world trace fst snd markup_of_outcome truthy].

#[local] Arguments lit : simpl never.

Lemma scrape_article_cases url keywords ocr_images log_signal (s : State W) :
  exists o w d,
    scrape_article url keywords ocr_images log_signal s
      = (o, mkState w (trace s ++ EvScrape url :: d))
    /\ levels d = [] /\ scraped d = []
    /\ match o with
       | Ok (Some filepath) =>
           rendered d = [url] /\ written d = [url]
           /\ exists soup ts text,
                EvBrowser url (inl soup) ∈ d
                /\ EvWrite url filepath text ∈ d
                /\ filepath = path_join SAVE_DIR (article_filename (page_title soup) ts)
                /\ exists w, ts = (strftime_now w).1
       | Ok None => rendered d = [url] /\ written d = []
       | Raised _ => (rendered d = [] \/ rendered d = [url]) /\ written d = []
       end.
Proof.
  unfold scrape_article, log, bind, tell, ret, os_makedirs, get_timestamp, write_file.
  cbn [world trace].
  repeat run_one.
  all: eexists _, _, _; (split; [rewrite <- ?app_assoc; reflexivity|]).
  all: unfold levels, scraped, rendered, written in *.
  all: repeat (progress (rewrite ?omap_app; cbn [omap list_omap app];
              repeat match goal with H : omap _ _ = [] |- _ => rewrite !H end)).
  all: repeat split; try done; try (by right); try (by left).
  all: do 3 eexists; (split; [|split; [|split; [reflexivity|]]]);
    [ repeat (rewrite elem_of_cons || rewrite elem_of_app); eauto 10
    | repeat (rewrite elem_of_cons || rewrite elem_of_app); eauto 10
    | match goal with
      | H : strftime_now ?w = (?ts, _) |- exists _, ?ts = _ =>
          exists w; by rewrite H
      end ].
Qed.

Lemma for_url_skip keywords ocr_images log_signal url rest visited total_files
    next_links :
  url ∈ visited ->
  for_url keywords ocr_images log_signal (url :: rest) visited total_files next_links
  = for_url keywords ocr_images log_signal rest visited total_files next_links.
Proof. intros Hin. cbn [for_url]. by rewrite bool_decide_true. Qed.

Lemma for_url_visit keywords ocr_images log_signal url rest visited total_files
    next_links (s s' : State W) o :
  url ∉ visited ->
  for_url keywords ocr_images log_signal (url :: rest) visited total_files
    next_links s = (o, s') ->
  exists d w1 pages,
    levels d = [] /\ scraped d = [url]
    /\ (rendered d = [] \/ rendered d = [url] \/ rendered d = [url; url])
    /\ (written d = [] \/ written d = [url])
    /\ (pages = [] \/ exists soup, pages = [(url, soup)] /\ EvBrowser url (inl soup) ∈ d)
    /\ let s1 := mkState w1 (trace s ++ d) in
       let total1 := (total_files + Z.of_nat (length (written d)))%Z in
       (exists e, o = Raised e /\ s' = s1)
       \/ (o = Ok (Returned total1) /\ s' = s1 /\ (50 <= total1)%Z)
       \/ for_url keywords ocr_images log_signal rest ({[url]} ∪ visited) total1
            (next_links ++ concat (links_of <$> pages)) s1 = (o, s').
Proof.
  intros Hnew. cbn [for_url]. rewrite bool_decide_false by exact Hnew.
  rewrite bind_unfold.
  destruct (scrape_article_cases url keywords ocr_images log_signal s)
    as (o1 & w1 & d1 & -> & Hlev & Hscr & Hcase).
  destruct o1 as [saved_file|e].
  2:{ intros [= <- <-]. destruct Hcase as [Hren Hwr].
      exists (EvScrape url :: d1), w1, [].
      unfold levels, scraped, rendered, written in *. cbn [omap list_omap].
      rewrite Hlev, Hscr, Hwr.
      split_and!; [done | done | | by left | by left | left; eauto].
      destruct Hren as [-> | ->]; auto. }
  rewrite bind_unfold, fetch_page_playwright_spec. cbn [world trace].
  destruct (page_content url w1) as [r w2]. cbn [fst snd].
  pose proof (quiet_silent _ (fetch_report_quiet url log_signal r))
    as (Hq1 & Hq2 & Hq3 & Hq4).
  set (d := EvScrape url :: d1 ++ EvBrowser url r :: fetch_report url log_signal r).
  assert (Hd : (trace s ++ EvScrape url :: d1)
               ++ EvBrowser url r :: fetch_report url log_signal r
               = trace s ++ d).
  { unfold d. by rewrite <- app_assoc. }
  rewrite Hd. clear Hd.
  assert (Hfoot : levels d = [] /\ scraped d = [url] /\ rendered d = [url; url]
                  /\ written d = match saved_file with Some _ => [url] | None => [] end).
  { unfold d, levels, scraped, rendered, written in *. cbn [omap list_omap].
    rewrite !omap_app. cbn [omap list_omap]. rewrite Hlev, Hscr, Hq1, Hq2, Hq3, Hq4.
    destruct saved_file.
    - by destruct Hcase as (-> & -> & _).
    - by destruct Hcase as (-> & ->). }
  destruct Hfoot as (Hl & Hs & Hr & Hw).
  assert (Hwr : written d = [] \/ written d = [url]).
  { rewrite Hw. destruct saved_file; auto. }
  assert (Htotal : match saved_file with
                   | Some _ => (total_files + 1)%Z
                   | None => total_files
                   end = (total_files + Z.of_nat (length (written d)))%Z).
  { rewrite Hw. destruct saved_file; simpl; lia. }
  rewrite Htotal. clear Htotal Hw Hcase.
  destruct (truthy (markup_of_outcome r)) as [soup|] eqn:Hsoup.
  - assert (r = inl soup) as Hr_soup.
    { destruct r as [[|c h]|e]; simpl in Hsoup; congruence. }
    assert (Hpage : EvBrowser url (inl soup) ∈ d).
    { unfold d. rewrite Hr_soup, elem_of_cons, elem_of_app, elem_of_cons. auto. }
    clearbody d. subst r.
    rewrite bind_unfold. unfold call at 1.
    destruct (extract_links url soup) as [links|e] eqn:Hlinks.
    2:{ intros [= <- <-]. exists d, w2, [].
        split_and!; [done | done | auto | done | by left | left; eauto]. }
    destruct (50 <=? _)%Z eqn:Hlimit.
    + apply Z.leb_le in Hlimit. rewrite bind_unfold.
      destruct log_signal; cbn [tell ret world trace]; intros [= <- <-].
      * exists (d ++ [EvEmit limit_message]), w2, [(url, soup)].
        rewrite levels_app, scraped_app, rendered_app, written_app, Hl, Hs, Hr.
        cbn [levels scraped rendered written omap list_omap app].
        rewrite !app_nil_r.
        split_and!; [done | done | auto | done | | ].
        -- right. exists soup. split; [done|]. rewrite elem_of_app. auto.
        -- right; left. by rewrite app_assoc.
      * exists d, w2, [(url, soup)].
        split_and!; [done | done | auto | done | eauto | ].
        right; left. done.
    + intros Hrun. exists d, w2, [(url, soup)].
      split_and!; [done | done | auto | done | eauto | ].
      right; right. cbn [fmap list_fmap concat]. rewrite app_nil_r.
      unfold links_of. cbn [fst snd]. rewrite Hlinks. exact Hrun.
  - intros Hrun. exists d, w2, [].
    split_and!; [done | done | auto | done | by left | ].
    right; right. cbn [fmap list_fmap concat]. rewrite app_nil_r. exact Hrun.
Qed.

Lemma consistent_visit visited total_files tr url d :
  consistent visited total_files tr ->
  url ∉ visited ->
  scraped d = [url] ->
  (rendered d = [] \/ rendered d = [url] \/ rendered d = [url; url]) ->
  (written d = [] \/ written d = [url]) ->
  consistent ({[url]} ∪ visited) (total_files + Z.of_nat (length (written d)))
    (tr ++ d).
Proof.
  intros [H1 H2 H3 H4 H5] Hnew Hs Hr Hw.
  pose proof (H2 url Hnew) as Hzero.
  split; intros; rewrite ?scraped_app, ?rendered_app, ?written_app, ?occ_app, ?Hs.
  - specialize (H1 u). cbn [occ]. case_bool_decide; [subst; lia | lia].
  - apply not_elem_of_union in H as [Hne Hv]. rewrite not_elem_of_singleton in Hne.
    rewrite (H2 u Hv). cbn [occ].
    by rewrite bool_decide_false by congruence.
  - specialize (H3 u). cbn [occ].
    destruct Hr as [Hr | [Hr | Hr]]; rewrite Hr; cbn [occ]; case_bool_decide; lia.
  - specialize (H4 u). cbn [occ].
    destruct Hw as [Hw | Hw]; rewrite Hw; cbn [occ]; case_bool_decide; lia.
  - rewrite length_app. lia.
Qed.

Lemma for_url_consistent keywords ocr_images log_signal to_visit :
  forall visited total_files next_links (s s' : State W) o,
  consistent visited total_files (trace s) ->
  for_url keywords ocr_images log_signal to_visit visited total_files next_links s
    = (o, s') ->
  levels (trace s') = levels (trace s)
  /\ exists visited' total',
       consistent visited' total' (trace s')
       /\ match o with
          | Ok (Completed v t _) => v = visited' /\ t = total'
          | Ok (Returned t) => t = total'
          | Raised _ => True
          end.
Proof.
  induction to_visit as [|url rest IH]; intros visited total_files next_links s s' o Hc.
  - intros [= <- <-]. split; [done|]. by exists visited, total_files.
  - destruct (decide (url ∈ visited)) as [Hin|Hnew].
    + rewrite for_url_skip by exact Hin. by apply IH.
    + intros Hrun.
      apply for_url_visit in Hrun
        as (d & w1 & pages & Hl & Hs & Hr & Hw & _ & Hnext); [|exact Hnew].
      pose proof (consistent_visit _ _ _ _ _ Hc Hnew Hs Hr Hw) as Hc'.
      cbn zeta in Hnext.
      destruct Hnext as [(e & -> & ->) | [(-> & -> & _) | Hrest]].
      * cbn [trace]. rewrite levels_app, Hl, app_nil_r. split; [done|]. eauto.
      * cbn [trace]. rewrite levels_app, Hl, app_nil_r. split; [done|]. eauto.
      * apply IH in Hrest as [Hlev Hrest]; [|exact Hc'].
        split; [|exact Hrest].
        rewrite Hlev. cbn [trace]. by rewrite levels_app, Hl, app_nil_r.
Qed.

Lemma consistent_start : consistent ∅ 0 [].
Proof. split; intros; cbn; done || lia. Qed.

Lemma for_level_consistent keywords depth ocr_images log_signal levels_todo :
  forall to_visit visited total_files (s s' : State W) o,
  consistent visited total_files (trace s) ->
  for_level keywords depth ocr_images log_signal levels_todo to_visit visited
    total_files s = (o, s') ->
  (exists k, levels (trace s') = levels (trace s) ++ take k levels_todo)
  /\ exists visited' total',
       consistent visited' total' (trace s')
       /\ match o with Ok t => t = total' | Raised _ => True end.
Proof.
  induction levels_todo as [|level todo IH];
    intros to_visit visited total_files s s' o Hc.
  - intros [= <- <-].
    split; [exists 0%nat; by rewrite app_nil_r | by exists visited, total_files].
  - cbn [for_level]. rewrite bind_unfold. cbn [tell]. rewrite bind_unfold.
    assert (Hlog : exists w1 d1,
      (if log_signal then tell (EvEmit (level_message level depth)) else ret ())
        (mkState (world s) (trace s ++ [EvLevel level]))
      = (Ok (), mkState w1 (trace s ++ EvLevel level :: d1))
      /\ forallb quiet d1 = true).
    { destruct log_signal; unfold tell, ret; cbn [world trace];
        eexists _, _; (split; [rewrite <- ?app_assoc; reflexivity | done]). }
    destruct Hlog as (w1 & d1 & -> & Hq).
    apply quiet_silent in Hq as (Hq1 & Hq2 & Hq3 & Hq4).
    assert (Hc1 : consistent visited total_files (trace s ++ EvLevel level :: d1)).
    { destruct Hc as [H1 H2 H3 H4 H5].
      split; intros; rewrite ?scraped_app, ?rendered_app, ?written_app;
        unfold scraped, rendered, written in *; cbn [omap list_omap];
        rewrite ?Hq2, ?Hq3, ?Hq4, ?app_nil_r; auto. }
    rewrite bind_unfold.
    destruct (for_url keywords ocr_images log_signal to_visit visited total_files [] _)
      as [exit s2] eqn:Hloop.
    apply for_url_consistent in Hloop as (Hlev & v' & t' & Hc2 & Hexit); [|exact Hc1].
    cbn [trace] in Hlev.
    assert (Hlev2 : levels (trace s2) = levels (trace s) ++ [level]).
    { rewrite Hlev, levels_app. unfold levels in *. cbn [omap list_omap].
      by rewrite Hq1. }
    destruct exit as [[t|v t nl]|e].
    + intros [= <- <-]. split; [exists 1%nat; by rewrite Hlev2 | eauto].
    + destruct Hexit as [-> ->]. intros Hrun.
      apply IH in Hrun as ((k & Hk) & Hrest); [|exact Hc2].
      split; [|exact Hrest].
      exists (S k). rewrite Hk, Hlev2, <- app_assoc. reflexivity.
    + intros [= <- <-]. split; [exists 1%nat; by rewrite Hlev2 | eauto].
Qed.
End WithPlatform.
End CrawlFacts.

(** ** The file name of a saved page *)

Module FilenameFacts.
Import Scraper Trace Spec Scripted CrawlFacts.

Section WithPlatform.
Context {U : Unicode} {W : Type} {P : Platform W}.

Lemma stem_article_filename (title ts : pystr) :
  stem (article_filename title ts) = safe_filename title ++ lit "_" ++ ts.
Proof.
  unfold stem, article_filename.
  rewrite !app_assoc, length_app.
  replace (length (lit ".txt")) with 4%nat by reflexivity.
  rewrite Nat.add_sub. apply take_app_length.
Qed.

(** On ASCII names every Unicode database sanitizes as the ASCII tables do. *)
Lemma safe_filename_ascii (name : pystr) :
  forallb is_ascii name = true ->
  safe_filename name = safe_filename (U := ascii_only) name.
Proof.
  intros Hascii. unfold safe_filename. f_equal.
  apply map_ext_in. intros c Hc.
  rewrite forallb_forall in Hascii. apply Hascii, N.ltb_lt in Hc.
  by rewrite (isalnum_ascii c Hc).
Qed.

(** C2, as the code has it. For a page whose title is
    "Hello, World! <Test>" the sanitized base is "Hello_ World_ _Test_":
    the comma and the exclamation mark are replaced with "_" like "<" and
    ">", and the file name is that base followed by "_", the timestamp and
    ".txt". *)
Theorem hello_world_filename (soup ts : pystr) :
  soup_title soup = Some (lit "Hello, World! <Test>") ->
  safe_filename (page_title soup) = lit "Hello_ World_ _Test_"
  /\ article_filename (page_title soup) ts
     = lit "Hello_ World_ _Test_" ++ lit "_" ++ ts ++ lit ".txt".
Proof.
  intros Htitle. unfold article_filename, page_title. rewrite Htitle. cbn [default].
  rewrite safe_filename_ascii by (by vm_compute).
  replace (safe_filename (U := ascii_only) (lit "Hello, World! <Test>"))
    with (lit "Hello_ World_ _Test_") by (by vm_compute).
  done.
Qed.

(** C4, as the code has it. The file written for a page is named by the
    sanitized title cut to 100 characters, then "_", a reading of the clock
    and ".txt"; it is the sanitized title, not the name before the
    extension, that has at most 100 characters: the name before the
    extension is longer by one plus the length of the timestamp. *)
Theorem saved_filename_shape url keywords ocr_images log_signal
    (s s' : State W) (filepath : pystr) :
  scrape_article url keywords ocr_images log_signal s = (Ok (Some filepath), s') ->
  exists soup ts text w,
    EvBrowser url (inl soup) ∈ trace s'
    /\ EvWrite url filepath text ∈ trace s'
    /\ ts = (strftime_now w).1
    /\ filepath = path_join SAVE_DIR (article_filename (page_title soup) ts)
    /\ article_filename (page_title soup) ts
       = take 100 ((fun c => if allowed_char c then c else ord "_") <$> page_title soup)
         ++ lit "_" ++ ts ++ lit ".txt"
    /\ (length (safe_filename (page_title soup)) <= 100)%nat
    /\ length (stem (article_filename (page_title soup) ts))
       = (length (safe_filename (page_title soup)) + 1 + length ts)%nat
    /\ (length (stem (article_filename (page_title soup) ts)) <= 101 + length ts)%nat.
Proof.
  intros Hrun.
  destruct (scrape_article_cases url keywords ocr_images log_signal s)
    as (o & w1 & d & Heq & _ & _ & Hcase).
  rewrite Hrun in Heq. injection Heq as <- ->.
  destruct Hcase as (_ & _ & soup & ts & text & Hb & Hw & -> & w & Hts).
  exists soup, ts, text, w. cbn [trace].
  assert (Hlen : (length (safe_filename (page_title soup)) <= 100)%nat).
  { unfold safe_filename. rewrite length_take. lia. }
  split_and!; try done.
  - rewrite elem_of_app. right. by right.
  - rewrite elem_of_app. right. by right.
  - rewrite stem_article_filename, !length_app. cbn. lia.
  - rewrite stem_article_filename, !length_app. cbn. lia.
Qed.

End WithPlatform.

Lemma hello_world_filename_witness :
  soup_title (Platform := hello_site) index_markup = Some (lit "Hello, World! <Test>")
  /\ article_filename (U := ascii_only) (page_title (P := hello_site) index_markup)
       frozen_clock
     = lit "Hello_ World_ _Test_" ++ lit "_" ++ frozen_clock ++ lit ".txt".
Proof.
  split; [reflexivity|].
  apply (hello_world_filename (U := ascii_only) (P := hello_site)).
  reflexivity.
Defined.

(** The name asked of the page titled "Hello, World! <Test>" keeps the
    comma and the exclamation mark; the code's name does not. *)
Lemma hello_world_comma_replaced :
  article_filename (U := ascii_only) (page_title (P := hello_site) index_markup)
    frozen_clock
  <> lit "Hello, World! _Test_" ++ lit "_" ++ frozen_clock ++ lit ".txt".
Proof. intros H. vm_compute in H. discriminate H. Qed.

Lemma saved_filename_shape_witness :
  exists filepath s',
    scrape_article (U := ascii_only) (P := hello_site) start_url [] false true
      (mkState 0%nat []) = (Ok (Some filepath), s')
    /\ exists soup ts text w,
         EvBrowser start_url (inl soup) ∈ trace s'
         /\ EvWrite start_url filepath text ∈ trace s'
         /\ ts = (strftime_now (Platform := hello_site) w).1
         /\ filepath = path_join SAVE_DIR
              (article_filename (U := ascii_only) (page_title (P := hello_site) soup) ts).
Proof.
  eexists _, _. split; [vm_compute; reflexivity|].
  edestruct (saved_filename_shape (U := ascii_only) (P := hello_site)
               start_url [] false true (mkState 0%nat []))
    as (soup & ts & text & w & H1 & H2 & H3 & H4 & _); [vm_compute; reflexivity|].
  exists soup, ts, text, w. split_and!; [exact H1 | exact H2 | exact H3 | exact H4].
Defined.

(** A page titled with one hundred letters is saved under a name whose
    part before the extension has 120 characters. *)
Lemma long_title_stem_exceeds_100 :
  (scrape_article (U := ascii_only) (P := long_title_site) start_url [] false true
     (mkState 0%nat [])).1
    = Ok (Some (path_join SAVE_DIR
                  (article_filename (U := ascii_only) long_title frozen_clock)))
  /\ length (stem (article_filename (U := ascii_only) long_title frozen_clock))
     = 120%nat
  /\ ~ (length (stem (article_filename (U := ascii_only) long_title frozen_clock))
        <= 100)%nat.
Proof.
  split; [by vm_compute|].
  assert (H : length (stem (article_filename (U := ascii_only) long_title frozen_clock))
              = 120%nat) by (by vm_compute).
  split; [exact H | rewrite H; lia].
Qed.

End FilenameFacts.

(** ** One page, in detail *)

Module PageFacts.
Import Scraper Trace Spec TraceFacts CrawlFacts.

Lemma renders_app tr d : renders (tr ++ d) = renders tr ++ renders d.
Proof. apply omap_app. Qed.
Lemma writes_app tr d : writes (tr ++ d) = writes tr ++ writes d.
Proof. apply omap_app. Qed.
Lemma gets_app tr d : gets (tr ++ d) = gets tr ++ gets d.
Proof. apply omap_app. Qed.

Lemma written_writes tr : written tr = (fun x => x.1.1) <$> writes tr.
Proof.
  unfold written, writes. induction tr as [|ev tr IH]; [done|].
  destruct ev; cbn; try done. by rewrite IH.
Qed.

Lemma rendered_renders tr : rendered tr = (renders tr).*1.
Proof.
  unfold rendered, renders. induction tr as [|ev tr IH]; [done|].
  destruct ev; cbn; try done. by rewrite IH.
Qed.

Lemma quiet_no_render d :
  forallb quiet d = true -> renders d = [] /\ writes d = [].
Proof.
  induction d as [|ev d IH]; [done|].
  cbn [forallb]. intros [Hev Hd]%andb_true_iff.
  destruct (IH Hd) as (? & ?).
  destruct ev; try discriminate; done.
Qed.

Section WithPlatform.
Context {U : Unicode} {W : Type} {P : Platform W}.

#[local] Arguments lit : simpl never.

Lemma fetch_report_gets url log_signal r : gets (fetch_report url log_signal r) = [].
Proof. by destruct r, log_signal. Qed.

(** The sources [urljoin] accepts, and the one it rejects first. *)
Lemma resolve_all_spec (url : pystr) (srcs : list pystr) :
  Forall2 (fun src u => urljoin url src = inl u)
    (take (length (resolve_all url srcs).1) srcs) (resolve_all url srcs).1
  /\ match (resolve_all url srcs).2 with
     | None => length (resolve_all url srcs).1 = length srcs
     | Some e =>
         exists src, srcs !! length (resolve_all url srcs).1 = Some src
                     /\ urljoin url src = inr e
     end.
Proof.
  induction srcs as [|src srcs [IH1 IH2]]; cbn [resolve_all].
  - split; [constructor | done].
  - destruct (urljoin url src) as [u|e] eqn:Hsrc; cbn [fst snd length take].
    + split; [by constructor|].
      destruct (resolve_all url srcs).2; [exact IH2 | by f_equal].
    + split; [constructor | by exists src].
Qed.

(** [extract_links], with the resolution of the anchors set apart. *)
Lemma for_a_spec (base : pystr) (hrefs links : list pystr) :
  for_a base hrefs links
  = match (resolve_all base hrefs).2 with
    | None => Ok (links ++ List.filter starts_with_http (resolve_all base hrefs).1)
    | Some e => Raised e
    end.
Proof.
  revert links. induction hrefs as [|href hrefs IH]; intros links;
    cbn [for_a resolve_all].
  - by rewrite app_nil_r.
  - unfold resolve. destruct (urljoin base href) as [u|e]; [|done].
    rewrite IH. cbn [fst snd].
    destruct (resolve_all base hrefs).2; [done|].
    cbn [List.filter]. destruct (starts_with_http u); [|done].
    by rewrite <- app_assoc.
Qed.

(** The links [extract_links] returns are the resolved anchors that begin
    with "http", in document order; it raises with the exception of the
    first anchor that does not resolve. *)
Lemma extract_links_cases (url soup : pystr) :
  match extract_links url soup with
  | Ok links =>
      exists resolved,
        Forall2 (fun href link => urljoin url href = inl link)
          (soup_a_href soup) resolved
        /\ links = List.filter starts_with_http resolved
  | Raised e =>
      exists k href,
        soup_a_href soup !! k = Some href /\ urljoin url href = inr e
        /\ forall j href', (j < k)%nat -> soup_a_href soup !! j = Some href' ->
             exists link, urljoin url href' = inl link
  end.
Proof.
  unfold extract_links. rewrite for_a_spec.
  destruct (resolve_all_spec url (soup_a_href soup)) as [Hres Herr].
  destruct (resolve_all url (soup_a_href soup)).2 as [e|].
  - destruct Herr as (href & Hk & He).
    exists (length (resolve_all url (soup_a_href soup)).1), href.
    split_and!; [done | done |].
    intros j href' Hj Hj'.
    assert (Htake : take (length (resolve_all url (soup_a_href soup)).1)
                      (soup_a_href soup) !! j = Some href').
    { by rewrite lookup_take_lt. }
    destruct (Forall2_lookup_l _ _ _ _ _ Hres Htake) as (link & _ & Hlink).
    by exists link.
  - rewrite Herr, firstn_all in Hres. eauto.
Qed.

Lemma extract_links_elem (url soup : pystr) (links : list pystr) :
  extract_links url soup = Ok links ->
  forall link,
    link ∈ links
    <-> starts_with_http link = true
        /\ exists href, href ∈ soup_a_href soup /\ urljoin url href = inl link.
Proof.
  intros Hlinks link. pose proof (extract_links_cases url soup) as Hcases.
  rewrite Hlinks in Hcases. destruct Hcases as (resolved & Hres & ->).
  rewrite list_elem_of_In, filter_In, <- list_elem_of_In.
  split.
  - intros [Hin Hhttp]. split; [done|].
    apply list_elem_of_lookup in Hin as [k Hk].
    destruct (Forall2_lookup_r _ _ _ _ _ Hres Hk) as (href & Hhref & Hjoin).
    exists href. split; [|done]. by eapply list_elem_of_lookup_2.
  - intros [Hhttp (href & Hin & Hjoin)]. split; [|done].
    apply list_elem_of_lookup in Hin as [k Hk].
    destruct (Forall2_lookup_l _ _ _ _ _ Hres Hk) as (link' & Hlink' & Hjoin').
    rewrite Hjoin in Hjoin'. injection Hjoin' as <-.
    by eapply list_elem_of_lookup_2.
Qed.

(** The OCR loop: the sources are resolved one by one; each resolved source
    is downloaded, and a failed download or a failed OCR only costs that
    image its block; a source that does not resolve ends the loop with the
    exception of [urljoin]. *)
Lemma for_img_pass url log_signal srcs :
  forall img_texts (s : State W),
  exists d,
    for_img url log_signal srcs img_texts s
    = (match (resolve_all url srcs).2 with
       | None => Ok (img_texts ++ (ocr_pass (resolve_all url srcs).1 (world s)).1)
       | Some e => Raised e
       end,
       mkState (ocr_pass (resolve_all url srcs).1 (world s)).2 (trace s ++ d))
    /\ forallb quiet d = true
    /\ gets d = (resolve_all url srcs).1.
Proof.
  induction srcs as [|src srcs IH]; intros img_texts s.
  - exists []. cbn. rewrite !app_nil_r. by destruct s.
  - cbn [for_img resolve_all]. rewrite bind_unfold. unfold call at 1, resolve.
    destruct (urljoin url src) as [u|e].
    2:{ exists []. cbn. rewrite app_nil_r. by destruct s. }
    cbn [fst snd ocr_pass]. rewrite bind_unfold.
    unfold http_get, extract_text_from_image, log, try_except, bind, tell, ret.
    cbn [world trace].
    destruct (requests_get u (world s)) as [[content|e] w1];
      cbn [world trace fst snd ocr_text].
    + destruct (image_to_string content) as [text|e]; cbn [world trace].
      * destruct (strip text) as [|c text'] eqn:Htext; cbn [world trace].
        -- destruct (IH img_texts (mkState w1 (trace s ++ [EvHttpGet u])))
             as (d & Heq & Hq & Hg).
           exists (EvHttpGet u :: d). rewrite Heq. cbn [world trace].
           rewrite <- app_assoc. split_and!; [done | done |].
           unfold gets in *. cbn. by rewrite Hg.
        -- destruct (IH (img_texts ++ [image_block u (c :: text')])
                       (mkState w1 (trace s ++ [EvHttpGet u])))
             as (d & Heq & Hq & Hg).
           exists (EvHttpGet u :: d). rewrite Heq. cbn [world trace].
           rewrite <- !app_assoc. split_and!; [done | done |].
           unfold gets in *. cbn. by rewrite Hg.
      * destruct (IH img_texts
                    (mkState w1 ((trace s ++ [EvHttpGet u])
                                 ++ [EvPrint (lit "OCR failed: " ++ e)])))
          as (d & Heq & Hq & Hg).
        exists (EvHttpGet u :: EvPrint (lit "OCR failed: " ++ e) :: d).
        rewrite Heq. cbn [world trace]. rewrite <- !app_assoc.
        split_and!; [done | done |].
        unfold gets in *. cbn. by rewrite Hg.
    + destruct log_signal; cbn [world trace].
      * destruct (IH img_texts
                    (mkState w1 ((trace s ++ [EvHttpGet u])
                                 ++ [EvEmit (ocr_warning u e)])))
          as (d & Heq & Hq & Hg).
        exists (EvHttpGet u :: EvEmit (ocr_warning u e) :: d).
        rewrite Heq. cbn [world trace]. rewrite <- !app_assoc.
        split_and!; [done | done |].
        unfold gets in *. cbn. by rewrite Hg.
      * destruct (IH img_texts
                    (mkState w1 ((trace s ++ [EvHttpGet u])
                                 ++ [EvPrint (ocr_warning u e)])))
          as (d & Heq & Hq & Hg).
        exists (EvHttpGet u :: EvPrint (ocr_warning u e) :: d).
        rewrite Heq. cbn [world trace]. rewrite <- !app_assoc.
        split_and!; [done | done |].
        unfold gets in *. cbn. by rewrite Hg.
Qed.

Ltac exec_one :=
  match goal with
  | |- context [for_img ?u ?l ?srcs ?acc ?s] =>
      let H := fresh in
      let Hq := fresh "Hquiet" in
      let Hq' := fresh "Hquiet" in
      destruct (for_img_pass u l srcs acc s) as (? & H & Hq & ?);
      rewrite H; clear H;
      pose proof (quiet_no_render _ Hq) as Hq';
      destruct Hq' as (? & ?);
      apply quiet_silent in Hq as (? & ? & _ & _)
  | |- context [fetch_page_playwright ?u ?l ?s] =>
      rewrite (fetch_page_playwright_spec u l s);
      let r := fresh "r" in
      destruct (page_content u (world s)) as [r ?]; cbn [fst snd];
      pose proof (quiet_silent _ (fetch_report_quiet u l r)) as (? & ? & _ & _);
      pose proof (quiet_no_render _ (fetch_report_quiet u l r)) as (? & ?);
      pose proof (fetch_report_gets u l r);
      destruct r
  | |- context [match ?x with _ => _ end] =>
      lazymatch x with
      | context [match _ with _ => _ end] => fail
      | _ => destruct x eqn:?
      end
  end; cbn [world trace fst snd markup_of_outcome truthy].

(** Everything one call of [scrape_article] does, by its outcome. *)
Lemma scrape_article_detail url keywords ocr_images log_signal (s : State W) :
  exists o w d,
    scrape_article url keywords ocr_images log_signal s
      = (o, mkState w (trace s ++ EvScrape url :: d))
    /\ levels d = [] /\ scraped d = []
    /\ match o with
       | Ok (Some filepath) =>
           exists c h ts ts' img_texts,
             renders d = [(url, inl (c :: h))]
             /\ writes d =
                  [(url, filepath,
                    with_image_texts
                      (article_text (page_title (c :: h)) url ts'
                         (join nl (List.filter nonempty (soup_p (c :: h)))))
                      img_texts)]
             /\ filepath = path_join SAVE_DIR (article_filename (page_title (c :: h)) ts)
             /\ gets d = (if ocr_images
                          then (resolve_all url (soup_img_src (c :: h))).1 else [])
             /\ (if ocr_images then True else img_texts = [])
       | Ok None =>
           exists r, renders d = [(url, r)] /\ falsy r = true /\ writes d = []
                     /\ gets d = []
       | Raised _ =>
           (renders d = [] \/ exists r, renders d = [(url, r)]) /\ writes d = []
       end.
Proof.
  unfold scrape_article, log, bind, tell, ret, os_makedirs, get_timestamp, write_file.
  cbn [world trace].
  repeat exec_one.
  all: eexists _, _, _; (split; [rewrite <- ?app_assoc; reflexivity|]).
  all: unfold levels, scraped, renders, writes, gets in *.
  all: repeat (progress (rewrite ?omap_app; cbn [omap list_omap app];
         repeat match goal with H : omap _ _ = _ |- _ => rewrite !H end)).
  all: rewrite ?app_nil_r; split; [done|split; [done|]].
  all: first
    [ do 4 eexists;
      first [ exists []; split_and!; (reflexivity || done)
            | eexists (_ :: _); split_and!; (reflexivity || done) ]
    | eexists; split_and!; done
    | split; [by left | done]
    | split; [right; eexists; done | done] ].
Qed.

Lemma falsy_truthy (r : pystr + Exn) :
  truthy (markup_of_outcome r) = None <-> falsy r = true.
Proof. destruct r as [[|c h]|e]; cbn; split; congruence. Qed.

(** One iteration of the per-URL loop on a URL that is not yet visited. *)
Lemma for_url_step keywords ocr_images log_signal url rest visited total_files
    next_links (s s' : State W) o :
  url ∉ visited ->
  for_url keywords ocr_images log_signal (url :: rest) visited total_files
    next_links s = (o, s') ->
  exists d w1,
    (visit_raised url d /\ s' = mkState w1 (trace s ++ d) /\ exists e, o = Raised e)
    \/ exists total1 pages,
         visit_done url total_files d total1 pages
         /\ ((pages <> [] /\ (50 <= total1)%Z /\ o = Ok (Returned total1)
              /\ s' = mkState w1 (trace s ++ d))
             \/ ((pages = [] \/ (total1 < 50)%Z)
                 /\ for_url keywords ocr_images log_signal rest ({[url]} ∪ visited)
                      total1 (next_links ++ concat (links_of <$> pages))
                      (mkState w1 (trace s ++ d)) = (o, s'))).
Proof.
  intros Hnew. cbn [for_url]. rewrite bool_decide_false by exact Hnew.
  rewrite bind_unfold.
  destruct (scrape_article_detail url keywords ocr_images log_signal s)
    as (o1 & w1 & d1 & -> & Hlev & Hscr & Hcase).
  destruct o1 as [saved_file|e].
  2:{ intros [= <- <-]. destruct Hcase as [Hren Hwr].
      exists (EvScrape url :: d1), w1. left. split_and!; [| done | eauto].
      unfold visit_raised. rewrite written_writes.
      unfold levels, scraped, renders, writes in *. cbn [omap list_omap].
      rewrite Hlev, Hscr, Hwr. split_and!; [done | done |]. by left. }
  rewrite bind_unfold, fetch_page_playwright_spec. cbn [world trace].
  destruct (page_content url w1) as [r2 w2]. cbn [fst snd].
  pose proof (quiet_silent _ (fetch_report_quiet url log_signal r2))
    as (Hq1 & Hq2 & _ & _).
  pose proof (quiet_no_render _ (fetch_report_quiet url log_signal r2)) as (Hq3 & Hq4).
  set (d := EvScrape url :: d1 ++ EvBrowser url r2 :: fetch_report url log_signal r2).
  assert (Hd : (trace s ++ EvScrape url :: d1)
               ++ EvBrowser url r2 :: fetch_report url log_signal r2
               = trace s ++ d).
  { unfold d. by rewrite <- app_assoc. }
  rewrite Hd. clear Hd.
  set (total1 := match saved_file with
                 | Some _ => (total_files + 1)%Z
                 | None => total_files
                 end).
  assert (Hdone : forall q, forallb quiet q = true ->
            visit_done url total_files (d ++ q) total1 (pages_of url r2)).
  { intros q Hq. apply quiet_silent in Hq as Hq'. destruct Hq' as (Hl & Hs & _ & _).
    apply quiet_no_render in Hq as [Hr Hw].
    assert (Hfoot : levels (d ++ q) = [] /\ scraped (d ++ q) = [url]
                    /\ writes (d ++ q) = writes d1 /\ renders (d ++ q) = renders d1 ++ [(url, r2)]).
    { rewrite levels_app, scraped_app, writes_app, renders_app, Hl, Hs, Hr, Hw.
      unfold d, levels, scraped, renders, writes in *. cbn [omap list_omap].
      rewrite !omap_app. cbn [omap list_omap].
      rewrite Hlev, Hscr, Hq1, Hq2, Hq3, Hq4, !app_nil_r. done. }
    destruct Hfoot as (Hl' & Hs' & Hw' & Hr').
    unfold visit_done. rewrite written_writes, Hl', Hs', Hw', Hr'.
    destruct saved_file as [filepath|].
    - destruct Hcase as (c & h & ts & ts' & imgs & -> & -> & _).
      exists (inl (c :: h)), r2. cbn. split_and!; done.
    - destruct Hcase as (r1 & -> & Hfalsy & -> & _).
      exists r1, r2. rewrite Hfalsy. cbn. split_and!; try done. unfold total1. lia. }
  fold total1.
  destruct (truthy (markup_of_outcome r2)) as [soup|] eqn:Hsoup.
  - assert (Hpages : pages_of url r2 = [(url, soup)]).
    { unfold pages_of. by rewrite Hsoup. }
    clearbody d.
    rewrite bind_unfold. unfold call at 1.
    destruct (extract_links url soup) as [links|e] eqn:Hlinks.
    2:{ intros [= <- <-]. exists d, w2. left. split_and!; [| done | eauto].
        destruct (Hdone [] eq_refl)
          as (r1 & r2' & Hl & Hs & Hr & Hw & _). rewrite app_nil_r in *.
        split_and!; [done | done |]. right. by exists r1, r2'. }
    destruct (50 <=? total1)%Z eqn:Hlimit.
    + apply Z.leb_le in Hlimit. rewrite bind_unfold.
      destruct log_signal; cbn [tell ret world trace]; intros [= <- <-].
      * exists (d ++ [EvEmit limit_message]), w2. right.
        exists total1, (pages_of url r2). split; [by apply Hdone|].
        left. rewrite Hpages, app_assoc. done.
      * exists d, w2. right. exists total1, (pages_of url r2).
        split; [rewrite <- (app_nil_r d); by apply Hdone|].
        left. rewrite Hpages. done.
    + apply Z.leb_gt in Hlimit. intros Hrun. exists d, w2. right.
      exists total1, (pages_of url r2).
      split; [rewrite <- (app_nil_r d); by apply Hdone|].
      right. split; [by right|].
      rewrite Hpages. cbn [fmap list_fmap concat]. rewrite app_nil_r.
      unfold links_of. cbn [fst snd]. rewrite Hlinks. exact Hrun.
  - assert (Hpages : pages_of url r2 = []).
    { unfold pages_of. by rewrite Hsoup. }
    intros Hrun. exists d, w2. right. exists total1, (pages_of url r2).
    split; [rewrite <- (app_nil_r d); by apply Hdone|].
    right. split; [by left|].
    rewrite Hpages. cbn [fmap list_fmap concat]. rewrite app_nil_r. exact Hrun.
Qed.

Lemma group_of_pages (url : pystr) (r2 : pystr + Exn) :
  concat (links_of <$> pages_of url r2) = group_of url r2.
Proof.
  unfold pages_of, group_of. destruct (truthy _); cbn [fmap list_fmap concat];
    [by rewrite app_nil_r | done].
Qed.

(** An iteration of the per-URL loop after which the loop reaches its end:
    both renders were run, the links of the second one were extracted
    without an exception, and its group joined the candidates. *)
Lemma for_url_step_completed keywords ocr_images log_signal url rest visited
    total_files next_links (s s' : State W) visited' total' next_links' :
  url ∉ visited ->
  for_url keywords ocr_images log_signal (url :: rest) visited total_files
    next_links s = (Ok (Completed visited' total' next_links'), s') ->
  exists r1 r2 total1 s1,
    renders (trace s1) = renders (trace s) ++ [(url, r1); (url, r2)]
    /\ match truthy (markup_of_outcome r2) with
       | Some soup => exists links, extract_links url soup = Ok links
       | None => True
       end
    /\ for_url keywords ocr_images log_signal rest ({[url]} ∪ visited) total1
         (next_links ++ group_of url r2) s1
       = (Ok (Completed visited' total' next_links'), s').
Proof.
  intros Hnew. cbn [for_url]. rewrite bool_decide_false by exact Hnew.
  rewrite bind_unfold.
  destruct (scrape_article_detail url keywords ocr_images log_signal s)
    as (o1 & w1 & d1 & -> & Hlev & Hscr & Hcase).
  destruct o1 as [saved_file|e]; [|done].
  rewrite bind_unfold, fetch_page_playwright_spec. cbn [world trace].
  destruct (page_content url w1) as [r2 w2]. cbn [fst snd].
  assert (Hr1 : exists r1, renders d1 = [(url, r1)]).
  { destruct saved_file.
    - destruct Hcase as (c & h & _ & _ & _ & Hr & _). eauto.
    - destruct Hcase as (r1 & Hr & _). eauto. }
  destruct Hr1 as [r1 Hr1].
  destruct (quiet_no_render _ (fetch_report_quiet url log_signal r2)) as [Hq _].
  set (s1 := mkState w2 _).
  assert (Hs1 : renders (trace s1) = renders (trace s) ++ [(url, r1); (url, r2)]).
  { unfold s1. cbn [trace]. rewrite !renders_app.
    change (EvScrape url :: d1) with ([EvScrape url] ++ d1).
    change (EvBrowser url r2 :: fetch_report url log_signal r2)
      with ([EvBrowser url r2] ++ fetch_report url log_signal r2).
    rewrite !renders_app, Hr1, Hq. cbn. by rewrite <- app_assoc. }
  clearbody s1.
  destruct (truthy (markup_of_outcome r2)) as [soup|] eqn:Hsoup.
  - rewrite bind_unfold. unfold call at 1.
    destruct (extract_links url soup) as [links|e] eqn:Hlinks; [|done].
    destruct (50 <=? _)%Z.
    { rewrite bind_unfold. by destruct log_signal. }
    intros Hrun. exists r1, r2. eexists _, s1.
    unfold group_of, links_of. rewrite Hsoup. cbn [fst snd]. rewrite Hlinks.
    split_and!; [done | eauto | exact Hrun].
  - intros Hrun. exists r1, r2. eexists _, s1.
    unfold group_of. rewrite Hsoup, app_nil_r.
    split_and!; [done | done | exact Hrun].
Qed.

End WithPlatform.
End PageFacts.

(** ** The crawl controller *)

Module ControllerFacts.
Import Scraper Trace Spec Scripted TraceFacts CrawlFacts PageFacts.

Section WithPlatform.
Context {U : Unicode} {W : Type} {P : Platform W}.

(** A level that runs to its end has gone through the URLs of the frontier
    that were not yet visited, in the order of the frontier; each had its
    two renders and added the group of its link-discovery render. *)
Lemma for_url_visits keywords ocr_images log_signal to_visit :
  forall visited total_files next_links (s s' : State W) visited' total' next_links',
  for_url keywords ocr_images log_signal to_visit visited total_files next_links s
    = (Ok (Completed visited' total' next_links'), s') ->
  exists visits,
    visit_url <$> visits = fresh_urls visited to_visit
    /\ renders (trace s') = renders (trace s) ++ concat (visit_renders <$> visits)
    /\ next_links' = next_links ++ concat (visit_group <$> visits)
    /\ Forall (fun v =>
                match truthy (markup_of_outcome (discovery_render v)) with
                | Some soup => exists links, extract_links (visit_url v) soup = Ok links
                | None => True
                end) visits.
Proof.
  induction to_visit as [|url rest IH];
    intros visited total_files next_links s s' visited' total' next_links'.
  - intros [= <- <- <- <-]. exists []. cbn. by rewrite !app_nil_r.
  - cbn [fresh_urls]. destruct (decide (url ∈ visited)) as [Hin|Hnew].
    + rewrite for_url_skip by exact Hin. rewrite bool_decide_true by exact Hin.
      apply IH.
    + rewrite bool_decide_false by exact Hnew. intros Hrun.
      apply for_url_step_completed in Hrun
        as (r1 & r2 & total1 & s1 & Hren & Hok & Hrest); [|exact Hnew].
      apply IH in Hrest as (visits & Hurls & Hrens & Hnl & Hall).
      exists (mkVisit url r1 r2 :: visits).
      cbn [fmap list_fmap concat visit_url].
      split_and!.
      * by rewrite Hurls.
      * rewrite Hrens, Hren, <- app_assoc. done.
      * rewrite Hnl, <- app_assoc. done.
      * by constructor.
Qed.

(** C3, as the code has it. When the per-URL loop of a level runs to its
    end, it has processed the URLs of the frontier that were not yet
    visited, each once and in the order of the frontier; the browser
    sessions of the level are exactly the two renders of each of these
    URLs, in that order; and the next frontier is the old candidate list
    followed by one group per processed URL, in the order the URLs were
    processed.  The group of a URL is decided by its link-discovery render,
    the second of its two sessions: without markup the group is empty; with
    markup the links were extracted without an exception and the group is
    the set of them in its iteration order, so it holds every distinct
    "http" link of that markup exactly once, in an order that need not be
    the document order of the anchors. *)
Theorem frontier_groups_in_processing_order keywords ocr_images log_signal
    to_visit visited total_files next_links (s s' : State W)
    visited' total' next_links' :
  for_url keywords ocr_images log_signal to_visit visited total_files next_links s
    = (Ok (Completed visited' total' next_links'), s') ->
  exists visits,
    visit_url <$> visits = fresh_urls visited to_visit
    /\ renders (trace s') = renders (trace s) ++ concat (visit_renders <$> visits)
    /\ next_links' = next_links ++ concat (visit_group <$> visits)
    /\ Forall (fun v =>
                match truthy (markup_of_outcome (discovery_render v)) with
                | Some soup =>
                    (exists links,
                       extract_links (visit_url v) soup = Ok links
                       /\ visit_group v = set_iter links)
                    /\ NoDup (visit_group v)
                    /\ forall link,
                         link ∈ visit_group v
                         <-> starts_with_http link = true
                             /\ exists href,
                                  href ∈ soup_a_href soup
                                  /\ urljoin (visit_url v) href = inl link
                | None => visit_group v = []
                end) visits.
Proof.
  intros Hrun.
  apply for_url_visits in Hrun as (visits & Hurls & Hrens & Hnl & Hall).
  exists visits. split_and!; try done.
  eapply Forall_impl; [exact Hall|].
  intros v Hv. cbn beta in Hv. unfold visit_group, group_of.
  destruct (truthy (markup_of_outcome (discovery_render v))) as [soup|]; [|done].
  destruct Hv as [links Hlinks].
  unfold links_of. cbn [fst snd]. rewrite Hlinks.
  split_and!; [by exists links | apply set_iter_NoDup |].
  intros link. rewrite set_iter_elem. by apply extract_links_elem.
Qed.

(** Whatever the iteration order, a group never repeats a link, so a page
    with a repeated anchor cannot contribute its anchors in document order. *)
Lemma repeated_anchor_collapses (url soup link : pystr) (links : list pystr) :
  extract_links url soup = Ok (link :: link :: links) ->
  links_of (url, soup) <> document_links (url, soup).
Proof.
  unfold links_of, document_links. cbn [fst snd]. intros Hdoc. rewrite Hdoc.
  intros Heq.
  pose proof (set_iter_NoDup (link :: link :: links)) as Hnd.
  rewrite Heq in Hnd.
  apply NoDup_cons in Hnd as [Hnotin _]. apply Hnotin. by left.
Qed.

Lemma run_scraper_consistent start_url keywords depth ocr_images log_signal
    (w : W) o (s' : State W) :
  run (run_scraper start_url keywords depth ocr_images log_signal) w = (o, s') ->
  (exists k, levels (trace s') = take k (range depth))
  /\ exists visited' total',
       consistent visited' total' (trace s')
       /\ match o with Ok t => t = total' | Raised _ => True end.
Proof.
  unfold run, run_scraper. intros Hrun.
  apply for_level_consistent in Hrun; [exact Hrun | apply consistent_start].
Qed.

(** C5. Within one invocation [scrape_article] is entered at most once per
    URL, so a URL is rendered at most once for extraction (at most twice in
    all, counting its link-discovery render) and gets at most one output
    file; the returned count is the number of files written; and an
    occurrence of a URL that is already in the visited set is skipped: the
    loop goes on with the rest of the frontier from the same state, the
    same count and the same candidate links. *)
Theorem visited_url_processed_once start_url keywords depth ocr_images log_signal
    (w : W) :
  let result := run (run_scraper start_url keywords depth ocr_images log_signal) w in
  (forall u, (occ u (scraped (trace result.2)) <= 1)%nat
             /\ (occ u (rendered (trace result.2)) <= 2)%nat
             /\ (occ u (written (trace result.2)) <= 1)%nat)
  /\ match result.1 with
     | Ok total => total = Z.of_nat (length (written (trace result.2)))
     | Raised _ => True
     end
  /\ forall url rest visited total_files next_links,
       for_url keywords ocr_images log_signal (url :: rest) ({[url]} ∪ visited)
         total_files next_links
       = for_url keywords ocr_images log_signal rest ({[url]} ∪ visited)
           total_files next_links.
Proof.
  intros result. subst result.
  destruct (run _ w) as [o s'] eqn:Hrun. cbn [fst snd].
  apply run_scraper_consistent in Hrun as (_ & v & t & [H1 H2 H3 H4 H5] & Ho).
  split_and!.
  - intros u. specialize (H1 u). specialize (H3 u). specialize (H4 u).
    split_and!; lia.
  - destruct o; [by subst | done].
  - intros url rest visited total_files next_links.
    apply for_url_skip. apply elem_of_union_l. by apply elem_of_singleton.
Qed.

(** C6. For every depth [d] the crawl comes to an end, and the levels it
    has entered are an initial segment of [range(d)]: at most [d] of them,
    whatever the frontier still holds. *)
Theorem at_most_depth_levels start_url keywords depth ocr_images log_signal
    (w : W) :
  exists o s',
    run (run_scraper start_url keywords depth ocr_images log_signal) w = (o, s')
    /\ (exists k, levels (trace s') = take k (range depth))
    /\ (length (levels (trace s')) <= Z.to_nat depth)%nat.
Proof.
  destruct (run (run_scraper start_url keywords depth ocr_images log_signal) w)
    as [o s'] eqn:Hrun.
  exists o, s'. split; [reflexivity|].
  apply run_scraper_consistent in Hrun as ((k & Hk) & _).
  split; [by exists k|].
  rewrite Hk, length_take. unfold range. rewrite length_fmap, length_seq. lia.
Qed.


End WithPlatform.
End ControllerFacts.

(** ** Runs on scripted sites *)

Module Runs.
Import Scraper Trace Spec Scripted ControllerFacts.

(** C1 at a failing input: an index page with 60 links, depth 2, and a
    network on which the link-discovery render of every linked page times
    out.  Each of the 60 pages is saved, each time-out takes the [continue]
    that jumps over the limit check, and the crawl returns 61 after writing
    61 files in 2 levels. *)
Lemma limit_skipped_when_link_render_fails :
  let result :=
    run (run_scraper (U := ascii_only) (P := wide_flaky_site)
           start_url [] 2 false true) 0%nat in
  result.1 = Ok 61%Z
  /\ length (written (trace result.2)) = 61%nat
  /\ levels (trace result.2) = [0%Z; 1%Z].
Proof. vm_compute. done. Qed.

(** On the page whose anchors are b, a, b the level processes the start
    URL and the next frontier is a, b. *)
Lemma frontier_groups_witness :
  exists visits,
    visit_url <$> visits = [start_url]
    /\ [link_a; link_b] = [] ++ concat (visit_group (P := bab_site) <$> visits).
Proof.
  edestruct (frontier_groups_in_processing_order (U := ascii_only) (P := bab_site)
               [] false true [start_url] ∅ 0%Z [] (mkState 0%nat []))
    as (visits & H1 & _ & H3 & _); [vm_compute; reflexivity|].
  assert (Hfresh : fresh_urls ∅ [start_url] = [start_url]) by (vm_compute; reflexivity).
  rewrite Hfresh in H1.
  exists visits. split; [exact H1 | exact H3].
Defined.

(** The anchors of the index page are, in document order, b, a, b; the
    frontier the level hands to the next one is a, b. *)
Lemma frontier_not_in_document_order :
  match (run (for_url (U := ascii_only) (P := bab_site) [] false true
                [start_url] ∅ 0%Z []) 0%nat).1 with
  | Ok (Completed _ _ next_links) =>
      next_links = [link_a; link_b]
      /\ frontier_in_document_order (P := bab_site) [(start_url, index_markup)]
         = [link_b; link_a; link_b]
      /\ next_links
         <> frontier_in_document_order (P := bab_site) [(start_url, index_markup)]
  | _ => False
  end.
Proof. vm_compute. split_and!; [done | done | discriminate]. Qed.



End Runs.

(** * Further properties *)

(** ** safe_filename *)

Module MoreUtilsFacts.
Import Spec UtilsFacts.
Section WithUnicode.
Context {U : Unicode}.

Lemma keep_or_underscore_fixed (c : N) :
  allowed_char c = true -> Utils.keep_or_underscore c = c.
Proof. intros Hc. rewrite keep_or_underscore_spec. by rewrite Hc. Qed.

Lemma map_keep_fixed (name : pystr) :
  forallb allowed_char name = true ->
  List.map Utils.keep_or_underscore name = name.
Proof.
  induction name as [|c name IH]; [done|].
  cbn [forallb List.map]. intros [Hc Hname]%andb_true_iff.
  by rewrite keep_or_underscore_fixed, IH.
Qed.

(** X2. A name of at most 100 characters, all of them alphanumeric, space,
    "-", "_" or ".", is returned unchanged. *)
Theorem safe_filename_fixed (name : pystr) :
  forallb allowed_char name = true ->
  (length name <= 100)%nat ->
  Utils.safe_filename name = name.
Proof.
  intros Hclean Hlen. unfold Utils.safe_filename.
  rewrite map_keep_fixed by exact Hclean. by apply take_ge.
Qed.

Lemma safe_filename_clean (name : pystr) :
  forallb allowed_char (Utils.safe_filename name) = true.
Proof.
  apply forallb_forall. intros c Hc.
  apply list_elem_of_In in Hc. unfold Utils.safe_filename in Hc.
  apply elem_of_take in Hc as (i & Hi & _).
  apply list_lookup_fmap_Some in Hi as (c0 & -> & _).
  apply keep_or_underscore_allowed.
Qed.

(** X1. [safe_filename] is idempotent: sanitizing a sanitized name changes
    nothing. *)
Theorem safe_filename_idempotent (name : pystr) :
  Utils.safe_filename (Utils.safe_filename name) = Utils.safe_filename name.
Proof.
  apply safe_filename_fixed; [apply safe_filename_clean|].
  rewrite safe_filename_length. lia.
Qed.

Lemma allowed_dot : allowed_char (ord ".") = true.
Proof. unfold allowed_char. apply orb_true_iff. right. reflexivity. Qed.

(** X3. A sanitized name holds no "/", no backslash, no ":", no NUL and no
    newline.  The names "." and ".." are left as they are. *)
Theorem safe_filename_has_no_separator (name : pystr) :
  Forall (fun c => c <> ord "/" /\ c <> 92 /\ c <> ord ":" /\ c <> 0 /\ c <> 10)
    (Utils.safe_filename name)
  /\ Utils.safe_filename (lit ".") = lit "."
  /\ Utils.safe_filename (lit "..") = lit "..".
Proof.
  split.
  2:{ unfold Utils.safe_filename.
      change (lit "..") with [ord "."; ord "."]. change (lit ".") with [ord "."].
      rewrite !map_keep_fixed by (cbn [forallb]; by rewrite allowed_dot).
      done. }
  apply Forall_forall. intros c Hc.
  pose proof (safe_filename_clean name) as Hclean.
  rewrite forallb_forall in Hclean.
  apply list_elem_of_In, Hclean in Hc.
  unfold allowed_char in Hc.
  split_and!; intros ->; rewrite isalnum_ascii in Hc by done; by vm_compute in Hc.
Qed.
End WithUnicode.
End MoreUtilsFacts.

(** ** Sentiment score *)

Module MoreAiUtilsFacts.
Import AiUtils Spec AiUtilsFacts.

Lemma lexicons_disjoint (w : pystr) :
  w ∈ positive_words -> w ∉ negative_words.
Proof.
  assert (H : positive_words ∩ negative_words = ∅) by (by vm_compute).
  intros Hp Hn.
  assert (Hboth : w ∈ positive_words ∩ negative_words)
    by (by apply elem_of_intersection).
  rewrite H in Hboth. by apply not_elem_of_empty in Hboth.
Qed.

Lemma foldl_score_word (ws : list pystr) (z : Z) :
  foldl score_word z ws
  = (z + Z.of_nat (count_in positive_words ws)
       - Z.of_nat (count_in negative_words ws))%Z.
Proof.
  revert z. induction ws as [|w ws IH]; intros z; [cbn; lia|].
  cbn [foldl]. rewrite IH. unfold score_word, count_in. cbn [List.filter].
  destruct (bool_decide (w ∈ positive_words)) eqn:Hp.
  - apply bool_decide_eq_true in Hp. apply lexicons_disjoint in Hp.
    rewrite (bool_decide_false _ Hp). cbn [length]. lia.
  - destruct (bool_decide (w ∈ negative_words)); cbn [length]; lia.
Qed.

Lemma count_in_le (lexicon : gset pystr) (ws : list pystr) :
  (count_in lexicon ws <= length ws)%nat.
Proof.
  unfold count_in. induction ws as [|w ws IH]; [done|].
  cbn [List.filter]. destruct (bool_decide _); cbn [length]; lia.
Qed.

Lemma count_in_app lexicon (ws1 ws2 : list pystr) :
  count_in lexicon (ws1 ++ ws2) = (count_in lexicon ws1 + count_in lexicon ws2)%nat.
Proof. unfold count_in. by rewrite List.filter_app, length_app. Qed.

Lemma count_in_disjoint (ws : list pystr) :
  (count_in positive_words ws + count_in negative_words ws <= length ws)%nat.
Proof.
  induction ws as [|w ws IH]; [done|].
  unfold count_in in *. cbn [List.filter length].
  destruct (bool_decide (w ∈ positive_words)) eqn:Hp.
  - apply bool_decide_eq_true in Hp. apply lexicons_disjoint in Hp.
    rewrite (bool_decide_false _ Hp). cbn [length]. lia.
  - destruct (bool_decide (w ∈ negative_words)); cbn [length]; lia.
Qed.

(** A non-word character ends the run being read. *)
Lemma word_runs_split (f : N -> bool) (s1 s2 cur : pystr) (c : N) :
  f c = false ->
  word_runs f cur (s1 ++ c :: s2) = word_runs f cur s1 ++ word_runs f [] s2.
Proof.
  intros Hc. revert cur. induction s1 as [|x s1 IH]; intros cur.
  - cbn. by rewrite Hc.
  - cbn. destruct (f x); [apply IH|]. by rewrite IH, app_assoc.
Qed.

Section WithUnicode.
Context {U : Unicode}.

(** X4. The score is the number of positive words minus the number of
    negative words among the words of the lower-cased text, so its absolute
    value is at most the number of words. *)
Theorem sentiment_weight_counts (text : pystr) :
  let words := findall_words (lower text) in
  sentiment_weight text
  = (Z.of_nat (count_in positive_words words)
     - Z.of_nat (count_in negative_words words))%Z
  /\ (- Z.of_nat (length words) <= sentiment_weight text <= Z.of_nat (length words))%Z.
Proof.
  intros words. unfold sentiment_weight. fold words. rewrite foldl_score_word.
  pose proof (count_in_disjoint words). split; lia.
Qed.

Lemma forallb_is_ascii_app (s1 s2 : pystr) :
  forallb is_ascii (s1 ++ s2) = true <->
  forallb is_ascii s1 = true /\ forallb is_ascii s2 = true.
Proof. rewrite forallb_app. apply andb_true_iff. Qed.

(** X5. On ASCII text the score is additive: two texts joined by a space
    score the sum of their scores. *)
Theorem sentiment_weight_additive (text1 text2 : pystr) :
  forallb is_ascii text1 = true ->
  forallb is_ascii text2 = true ->
  sentiment_weight (text1 ++ lit " " ++ text2)
  = (sentiment_weight text1 + sentiment_weight text2)%Z.
Proof.
  intros H1 H2.
  assert (H12 : forallb is_ascii (text1 ++ lit " " ++ text2) = true).
  { apply forallb_is_ascii_app. split; [done|].
    apply forallb_is_ascii_app. by split. }
  rewrite (sentiment_weight_ascii _ H12), (sentiment_weight_ascii _ H1),
    (sentiment_weight_ascii _ H2).
  unfold sentiment_weight, findall_words.
  change (@lower ascii_only) with (List.map ascii_lower).
  rewrite !map_app. change (List.map ascii_lower (lit " ")) with [32].
  cbn [app]. rewrite word_runs_split by (by vm_compute).
  rewrite foldl_app, !foldl_score_word. lia.
Qed.

(** X6. On ASCII text the score ignores letter case: texts with the same
    lower-casing score the same. *)
Theorem sentiment_weight_ignores_case (text1 text2 : pystr) :
  forallb is_ascii text1 = true ->
  forallb is_ascii text2 = true ->
  List.map ascii_lower text1 = List.map ascii_lower text2 ->
  sentiment_weight text1 = sentiment_weight text2.
Proof.
  intros H1 H2 Heq.
  rewrite (sentiment_weight_ascii _ H1), (sentiment_weight_ascii _ H2).
  unfold sentiment_weight.
  change (@lower ascii_only) with (List.map ascii_lower). by rewrite Heq.
Qed.
End WithUnicode.
End MoreAiUtilsFacts.

(** ** Keyword frequency *)

Module KeywordFacts.
Import AiUtils Trace Spec.

Lemma counted_counter_add (w w' : pystr) (c : list (pystr * nat)) :
  counted w' (counter_add w c)
  = (counted w' c + if bool_decide (w = w') then 1 else 0)%nat.
Proof.
  induction c as [|[k n] c IH]; cbn [counter_add counted].
  - repeat case_bool_decide; lia.
  - destruct (bool_decide (k = w)) eqn:Hk; cbn [counted].
    + apply bool_decide_eq_true in Hk as ->.
      repeat case_bool_decide; lia.
    + apply bool_decide_eq_false in Hk.
      repeat case_bool_decide; try lia; congruence.
Qed.

Lemma keys_counter_add (w : pystr) (c : list (pystr * nat)) :
  (counter_add w c).*1 = if bool_decide (w ∈ c.*1) then c.*1 else c.*1 ++ [w].
Proof.
  induction c as [|[k n] c IH]; [done|].
  cbn [counter_add fmap list_fmap fst].
  destruct (bool_decide (k = w)) eqn:Hk.
  - apply bool_decide_eq_true in Hk as ->.
    rewrite bool_decide_true by left. done.
  - apply bool_decide_eq_false in Hk.
    cbn [fmap list_fmap fst]. change (list_fmap _ _ fst ?l) with (l.*1).
    rewrite IH. case_bool_decide as Hin.
    + rewrite bool_decide_true by (by right). done.
    + rewrite bool_decide_false; [done|].
      rewrite elem_of_cons. intros [->|?]; done.
Qed.

Lemma Counter_spec (words : list pystr) :
  NoDup (Counter words).*1
  /\ (forall w, w ∈ (Counter words).*1 <-> w ∈ words)
  /\ (forall w, counted w (Counter words) = occ w words).
Proof.
  unfold Counter.
  cut (forall c pre,
         NoDup c.*1 -> (forall w, w ∈ c.*1 <-> w ∈ pre) ->
         (forall w, counted w c = occ w pre) ->
         let c' := foldl (fun c w => counter_add w c) c words in
         NoDup c'.*1 /\ (forall w, w ∈ c'.*1 <-> w ∈ pre ++ words)
         /\ (forall w, counted w c' = occ w (pre ++ words))).
  { intros H. apply (H [] []); [constructor | done | done]. }
  induction words as [|x words IH]; intros c pre Hnd Hkeys Hcount.
  - cbn. rewrite app_nil_r. done.
  - cbn [foldl].
    replace (pre ++ x :: words) with ((pre ++ [x]) ++ words)
      by (by rewrite <- app_assoc).
    apply IH.
    + rewrite keys_counter_add. case_bool_decide as Hin; [done|].
      apply NoDup_app. split_and!; [done | | apply NoDup_singleton].
      intros y Hy ->%list_elem_of_singleton. done.
    + intros w. rewrite keys_counter_add, elem_of_app, list_elem_of_singleton.
      case_bool_decide as Hin.
      * rewrite <- Hkeys. split; [auto|]. intros [?| ->]; done.
      * rewrite elem_of_app, list_elem_of_singleton, Hkeys. done.
    + intros w. rewrite counted_counter_add, TraceFacts.occ_app, Hcount.
      cbn [occ]. lia.
Qed.

Lemma counted_lookup (c : list (pystr * nat)) (w : pystr) (n : nat) :
  NoDup c.*1 -> (w, n) ∈ c -> counted w c = n.
Proof.
  induction c as [|[k m] c IH]; [by intros _ ?%elem_of_nil|].
  cbn [fmap list_fmap fst]. intros [Hk Hnd]%NoDup_cons [Heq|Hin]%elem_of_cons.
  - injection Heq as <- <-. cbn. by rewrite bool_decide_true.
  - cbn. rewrite bool_decide_false; [by apply IH|].
    intros ->. apply Hk. by apply (list_elem_of_fmap_2 fst _ (w, n)).
Qed.

Lemma insert_by_count_perm (x : pystr * nat) (l : list (pystr * nat)) :
  insert_by_count x l ≡ₚ x :: l.
Proof.
  induction l as [|y l IH]; [done|].
  cbn [insert_by_count]. destruct (x.2 <? y.2)%nat; [|done].
  rewrite IH. apply Permutation_swap.
Qed.

Lemma sort_by_count_perm (c : list (pystr * nat)) : sort_by_count c ≡ₚ c.
Proof.
  induction c as [|x c IH]; [done|].
  cbn. by rewrite insert_by_count_perm, IH.
Qed.

Lemma insert_by_count_sorted (x : pystr * nat) (l : list (pystr * nat)) :
  StronglySorted by_count l -> StronglySorted by_count (insert_by_count x l).
Proof.
  induction l as [|y l IH]; intros Hs.
  - cbn [insert_by_count]. repeat constructor.
  - apply StronglySorted_inv in Hs as [Hs Hy]. cbn [insert_by_count].
    destruct (x.2 <? y.2)%nat eqn:Hlt.
    + apply Nat.ltb_lt in Hlt. constructor; [by apply IH|].
      rewrite insert_by_count_perm. constructor; [unfold by_count; lia | done].
    + apply Nat.ltb_ge in Hlt. constructor; [by constructor|].
      constructor; [done|].
      eapply Forall_impl; [exact Hy|]. unfold by_count. intros z Hz. lia.
Qed.

Lemma sort_by_count_sorted (c : list (pystr * nat)) :
  StronglySorted by_count (sort_by_count c).
Proof.
  induction c as [|x c IH]; [constructor|].
  cbn. by apply insert_by_count_sorted.
Qed.

Lemma StronglySorted_fmap_fst (R : pystr -> pystr -> Prop)
    (l : list (pystr * nat)) :
  StronglySorted by_count l ->
  (forall x y, x ∈ l -> y ∈ l -> by_count x y -> R x.1 y.1) ->
  StronglySorted R l.*1.
Proof.
  induction l as [|x l IH]; intros Hs HR; [constructor|].
  apply StronglySorted_inv in Hs as [Hs Hx]. cbn [fmap list_fmap].
  constructor.
  - apply IH; [done|]. intros a b Ha Hb. apply HR; by right.
  - apply Forall_fmap, Forall_forall. intros y Hy. cbn.
    rewrite Forall_forall in Hx. apply HR; [by left | by right | by apply Hx].
Qed.

Lemma elem_of_take_inv {A} (x : A) (k : nat) (l : list A) : x ∈ take k l -> x ∈ l.
Proof. intros Hx. eapply elem_of_sublist; [exact Hx | apply sublist_take]. Qed.

Lemma elem_of_drop_inv {A} (x : A) (k : nat) (l : list A) : x ∈ drop k l -> x ∈ l.
Proof. intros Hx. eapply elem_of_sublist; [exact Hx | apply sublist_drop]. Qed.

Section WithUnicode.
Context {U : Unicode}.

Lemma sorted_counter_entry (words : list pystr) (w : pystr) (n : nat) :
  (w, n) ∈ sort_by_count (Counter words) -> n = occ w words /\ w ∈ words.
Proof.
  rewrite sort_by_count_perm. intros Hin.
  destruct (Counter_spec words) as (Hnd & Hkeys & Hcount).
  split.
  - rewrite <- Hcount. symmetry. by apply counted_lookup.
  - apply Hkeys. by apply (list_elem_of_fmap_2 fst _ (w, n)).
Qed.

(** X7. [keyword_density] returns at most [top_n] keywords, without
    repetition; each is a word of three or more ASCII letters of the
    lower-cased text; they come by decreasing frequency; no word left out is
    more frequent than a word returned; and unless [top_n] keywords are
    returned, every word is. *)
Theorem keyword_density_top (text : pystr) (top_n : Z) :
  let words := findall_keywords (lower text) in
  let result := keyword_density text top_n in
  (length result <= Z.to_nat top_n)%nat
  /\ NoDup result
  /\ Forall (fun w => w ∈ words /\ is_keyword w = true) result
  /\ StronglySorted (as_frequent words) result
  /\ Forall (fun v => v ∈ result \/ Forall (fun w => as_frequent words w v) result)
       words
  /\ ((Z.to_nat top_n <= length result)%nat \/ Forall (fun v => v ∈ result) words).
Proof.
  intros words result. subst result. unfold keyword_density, most_common.
  fold words. set (k := Z.to_nat top_n). set (S := sort_by_count (Counter words)).
  destruct (Counter_spec words) as (Hnd & Hkeys & Hcount).
  assert (HS : S.*1 ≡ₚ (Counter words).*1) by (unfold S; by rewrite sort_by_count_perm).
  assert (HndS : NoDup S.*1) by (by rewrite HS).
  assert (Hsorted : StronglySorted by_count S) by apply sort_by_count_sorted.
  rewrite fmap_take.
  split_and!.
  - rewrite length_take. lia.
  - eapply sublist_NoDup; [exact HndS | apply sublist_take].
  - apply Forall_forall. intros w Hw.
    assert (Hin : w ∈ words).
    { apply Hkeys. rewrite <- HS. by apply elem_of_take_inv in Hw. }
    split; [done|].
    apply list_elem_of_In, filter_In in Hin. apply Hin.
  - rewrite <- fmap_take. apply StronglySorted_fmap_fst.
    + rewrite <- (take_drop k S) in Hsorted.
      by apply StronglySorted_app_1_l in Hsorted.
    + intros [a n] [b m] Ha%elem_of_take_inv Hb%elem_of_take_inv Hab.
      apply sorted_counter_entry in Ha as [-> _].
      apply sorted_counter_entry in Hb as [-> _]. exact Hab.
  - apply Forall_forall. intros v Hv.
    assert (HvS : v ∈ S.*1) by (rewrite HS; by apply Hkeys).
    rewrite <- (take_drop k S.*1), elem_of_app in HvS.
    destruct HvS as [Hin|Hout]; [by left | right].
    apply Forall_forall. intros w Hw.
    rewrite <- fmap_take in Hw. rewrite <- fmap_drop in Hout.
    apply list_elem_of_fmap in Hw as ([w' n] & -> & Hw).
    apply list_elem_of_fmap in Hout as ([v' m] & -> & Hout).
    rewrite <- (take_drop k S) in Hsorted.
    pose proof (@StronglySorted_app_1_elem_of _ _ _ _ _ _ Hsorted Hw Hout) as Hle.
    apply elem_of_take_inv in Hw. apply elem_of_drop_inv in Hout.
    apply sorted_counter_entry in Hw as [-> _].
    apply sorted_counter_entry in Hout as [-> _]. exact Hle.
  - destruct (decide (k <= length S.*1)%nat) as [Hle|Hgt].
    + left. rewrite length_take. lia.
    + right. apply Forall_forall. intros v Hv.
      rewrite take_ge by lia. rewrite HS. by apply Hkeys.
Qed.
End WithUnicode.
End KeywordFacts.


(** ** Invariants of the crawl loops *)

Module LoopFacts.
Import Scraper Trace Spec TraceFacts CrawlFacts PageFacts.

Section Invariant.
Context {U : Unicode} {W : Type} {P : Platform W}.
Variables (keywords : list pystr) (depth : Z) (ocr_images log_signal : bool).

(** [Good] holds of every URL the crawl is about to process, [Inv] of the
    count, the candidate links and the trace at the head of every
    iteration, [Post] of the outcome and the trace at the end. *)
Variable Good : pystr -> Prop.
Variable Inv : Z -> list pystr -> list Event -> Prop.
Variable Post : Outcome Z -> list Event -> Prop.

Hypothesis Inv_links : forall t nl tr, Inv t nl tr -> Forall Good nl.
Hypothesis Inv_level : forall t nl tr level d,
  Inv t nl tr -> level_header level d -> Inv t [] (tr ++ d).
Hypothesis Inv_continue : forall t nl tr url d t1 pages,
  Inv t nl tr -> Good url -> visit_done url t d t1 pages ->
  pages = [] \/ (t1 < 50)%Z ->
  Inv t1 (nl ++ concat (links_of <$> pages)) (tr ++ d).
Hypothesis Post_return : forall t nl tr url d t1 pages,
  Inv t nl tr -> Good url -> visit_done url t d t1 pages ->
  pages <> [] -> (50 <= t1)%Z -> Post (Ok t1) (tr ++ d).
Hypothesis Post_raise : forall t nl tr url d e,
  Inv t nl tr -> Good url -> visit_raised url d -> Post (Raised e) (tr ++ d).
Hypothesis Post_end : forall t nl tr, Inv t nl tr -> Post (Ok t) tr.

Lemma for_url_invariant to_visit :
  forall visited total_files next_links (s s' : State W) o,
  Inv total_files next_links (trace s) ->
  Forall Good to_visit ->
  for_url keywords ocr_images log_signal to_visit visited total_files next_links s
    = (o, s') ->
  match o with
  | Ok (Completed _ t nl) => Inv t nl (trace s')
  | Ok (Returned t) => Post (Ok t) (trace s')
  | Raised e => Post (Raised e) (trace s')
  end.
Proof.
  induction to_visit as [|url rest IH];
    intros visited total_files next_links s s' o HI Hgood.
  - by intros [= <- <-].
  - apply Forall_cons in Hgood as [Hurl Hrest].
    destruct (decide (url ∈ visited)) as [Hin|Hnew].
    + rewrite for_url_skip by exact Hin. by apply IH.
    + intros Hrun.
      apply for_url_step in Hrun as (d & w1 & Hstep); [|exact Hnew].
      destruct Hstep as [(Hraised & -> & e & ->) | (t1 & pages & Hdone & Hexit)].
      * cbn [trace]. by eapply Post_raise.
      * destruct Hexit as [(Hpages & Hlimit & -> & ->) | (Hcont & Hrun)].
        -- cbn [trace]. by eapply Post_return.
        -- eapply IH; [|exact Hrest|exact Hrun].
           cbn [trace]. by eapply Inv_continue.
Qed.

Lemma for_level_invariant levels_todo :
  forall to_visit visited total_files (s s' : State W) o,
  Inv total_files to_visit (trace s) ->
  for_level keywords depth ocr_images log_signal levels_todo to_visit visited
    total_files s = (o, s') ->
  Post o (trace s').
Proof.
  induction levels_todo as [|level todo IH];
    intros to_visit visited total_files s s' o HI.
  - intros [= <- <-]. by eapply Post_end.
  - cbn [for_level]. rewrite bind_unfold. cbn [tell]. rewrite bind_unfold.
    assert (Hlog : exists w1 d1,
      (if log_signal then tell (EvEmit (level_message level depth)) else ret ())
        (mkState (world s) (trace s ++ [EvLevel level]))
      = (Ok (), mkState w1 (trace s ++ EvLevel level :: d1))
      /\ forallb quiet d1 = true).
    { destruct log_signal; unfold tell, ret; cbn [world trace];
        eexists _, _; (split; [rewrite <- ?app_assoc; reflexivity | done]). }
    destruct Hlog as (w1 & d1 & -> & Hq).
    assert (Hheader : level_header level (EvLevel level :: d1)).
    { apply quiet_silent in Hq as Hq'. destruct Hq' as (H1 & H2 & _ & _).
      apply quiet_no_render in Hq as (H3 & H4).
      unfold level_header. rewrite written_writes.
      unfold levels, scraped, renders, writes in *. cbn [omap list_omap].
      by rewrite H1, H2, H3, H4. }
    rewrite bind_unfold.
    destruct (for_url keywords ocr_images log_signal to_visit visited total_files [] _)
      as [exit s2] eqn:Hloop.
    apply for_url_invariant in Hloop;
      [|by eapply Inv_level|by eapply Inv_links].
    destruct exit as [[t|v t nl]|e].
    + by intros [= <- <-].
    + intros Hrun. by eapply IH.
    + by intros [= <- <-].
Qed.

Lemma run_scraper_invariant start_url (w : W) :
  Inv 0 [start_url] [] ->
  Post (run (run_scraper start_url keywords depth ocr_images log_signal) w).1
       (trace (run (run_scraper start_url keywords depth ocr_images log_signal) w).2).
Proof.
  intros Hinit.
  destruct (run _ w) as [o s'] eqn:Hrun. cbn [fst snd].
  unfold run, run_scraper in Hrun.
  by apply for_level_invariant in Hrun.
Qed.
End Invariant.
End LoopFacts.

(** ** Properties of a whole crawl *)

Module CrawlProperties.
Import Scraper Trace Spec TraceFacts CrawlFacts PageFacts LoopFacts.

Lemma failed_renders_app tr d :
  failed_renders (tr ++ d) = (failed_renders tr + failed_renders d)%nat.
Proof. unfold failed_renders. by rewrite renders_app, List.filter_app, length_app. Qed.

Lemma failed_renders_quiet d : renders d = [] -> failed_renders d = 0%nat.
Proof. unfold failed_renders. by intros ->. Qed.

Section WithPlatform.
Context {U : Unicode} {W : Type} {P : Platform W}.

Lemma links_of_http (page : pystr * pystr) :
  Forall (fun link => starts_with_http link = true) (links_of page).
Proof.
  apply Forall_forall. intros link Hlink.
  unfold links_of in Hlink.
  destruct (extract_links page.1 page.2) as [links|e] eqn:Hlinks.
  - apply (proj1 (set_iter_elem _ _)) in Hlink.
    by apply (extract_links_elem _ _ _ Hlinks) in Hlink as [Hhttp _].
  - by apply elem_of_nil in Hlink.
Qed.

(** X14. The returned count is at most 50 plus the number of browser
    sessions that failed or gave empty markup: without a failed render the
    ceiling of 50 holds. *)
Theorem limit_up_to_failed_renders start_url keywords depth ocr_images log_signal
    (w : W) :
  let result := run (run_scraper start_url keywords depth ocr_images log_signal) w in
  match result.1 with
  | Ok total_files =>
      (total_files <= 50 + Z.of_nat (failed_renders (trace result.2)))%Z
  | Raised _ => True
  end.
Proof.
  cbn zeta.
  apply (run_scraper_invariant keywords depth ocr_images log_signal
           (fun _ => True)
           (fun t _ tr => (t <= 49 + Z.of_nat (failed_renders tr))%Z)
           (fun o tr => match o with
                        | Ok t => (t <= 50 + Z.of_nat (failed_renders tr))%Z
                        | Raised _ => True
                        end)).
  - intros. by apply Forall_true.
  - intros t nl tr level d Ht (_ & _ & Hr & _).
    rewrite failed_renders_app, (failed_renders_quiet d Hr). lia.
  - intros t nl tr url d t1 pages Ht _ (r1 & r2 & _ & _ & Hr & Hw & -> & ->) Hcont.
    rewrite failed_renders_app. unfold failed_renders at 2. rewrite Hr, Hw.
    cbn [List.filter snd length].
    destruct Hcont as [Hpages | Hlt].
    + unfold pages_of in Hpages.
      destruct (truthy (markup_of_outcome r2)) eqn:Hr2; [done|].
      apply falsy_truthy in Hr2. rewrite Hr2.
      destruct (falsy r1); cbn [length]; lia.
    + rewrite Hw in Hlt. destruct (falsy r1), (falsy r2); cbn [length] in *; lia.
  - intros t nl tr url d t1 pages Ht _ (r1 & r2 & _ & _ & Hr & Hw & -> & ->) _ _.
    rewrite failed_renders_app, Hw. destruct (falsy r1); cbn [length]; lia.
  - done.
  - intros t nl tr Ht. lia.
  - cbn. lia.
Qed.

(** X15. Every URL handed to [scrape_article] is the start URL or begins
    with "http". *)
Theorem scraped_urls_are_http start_url keywords depth ocr_images log_signal
    (w : W) :
  let result := run (run_scraper start_url keywords depth ocr_images log_signal) w in
  Forall (fun url => url = start_url \/ starts_with_http url = true)
    (scraped (trace result.2)).
Proof.
  cbn zeta.
  set (Good := fun url : pystr => url = start_url \/ starts_with_http url = true).
  apply (run_scraper_invariant keywords depth ocr_images log_signal Good
           (fun _ nl tr => Forall Good nl /\ Forall Good (scraped tr))
           (fun _ tr => Forall Good (scraped tr))).
  - by intros t nl tr [Hnl _].
  - intros t nl tr level d [_ Hs] (_ & Hd & _).
    rewrite scraped_app, Hd, app_nil_r. by split.
  - intros t nl tr url d t1 pages [Hnl Hs] Hurl (r1 & r2 & _ & Hd & _ & _ & _ & ->) _.
    rewrite scraped_app, Hd. split.
    + apply Forall_app. split; [done|].
      unfold pages_of. destruct (truthy _); cbn [fmap list_fmap concat]; [|done].
      rewrite app_nil_r. eapply Forall_impl; [apply links_of_http|].
      intros link Hlink. by right.
    + apply Forall_app. split; [done|]. by constructor.
  - intros t nl tr url d t1 pages [_ Hs] Hurl (r1 & r2 & _ & Hd & _) _ _.
    rewrite scraped_app, Hd. apply Forall_app. split; [done|]. by constructor.
  - intros t nl tr url d e [_ Hs] Hurl (_ & Hd & _).
    rewrite scraped_app, Hd. apply Forall_app. split; [done|]. by constructor.
  - by intros t nl tr [_ Hs].
  - split; [|done]. constructor; [by left | done].
Qed.

(** X16. A file is written only for a URL of which some browser session
    gave non-empty markup. *)
Theorem written_only_after_markup start_url keywords depth ocr_images log_signal
    (w : W) :
  let result := run (run_scraper start_url keywords depth ocr_images log_signal) w in
  Forall (fun url => exists c h, (url, inl (c :: h)) ∈ renders (trace result.2))
    (written (trace result.2)).
Proof.
  cbn zeta.
  set (Q := fun tr => Forall (fun url : pystr =>
              exists c h, (url, @inl pystr Exn (c :: h)) ∈ renders tr) (written tr)).
  assert (Hmono : forall tr d, Q tr ->
            Forall (fun url : pystr =>
              exists c h, (url, @inl pystr Exn (c :: h)) ∈ renders d) (written d) ->
            Q (tr ++ d)).
  { intros tr d Htr Hd. unfold Q. rewrite written_app, renders_app.
    apply Forall_app. split.
    - eapply Forall_impl; [exact Htr|]. intros url (c & h & Hin).
      exists c, h. rewrite elem_of_app. by left.
    - eapply Forall_impl; [exact Hd|]. intros url (c & h & Hin).
      exists c, h. rewrite elem_of_app. by right. }
  apply (run_scraper_invariant keywords depth ocr_images log_signal
           (fun _ => True) (fun _ _ tr => Q tr) (fun _ tr => Q tr)).
  - intros. by apply Forall_true.
  - intros t nl tr level d Htr (_ & _ & _ & Hw). apply Hmono; [done|].
    rewrite Hw. constructor.
  - intros t nl tr url d t1 pages Htr _ (r1 & r2 & _ & _ & Hr & Hw & _) _.
    apply Hmono; [done|]. rewrite Hw, Hr.
    destruct r1 as [[|c h]|e]; cbn [falsy]; constructor; [|constructor].
    exists c, h. by left.
  - intros t nl tr url d t1 pages Htr _ (r1 & r2 & _ & _ & Hr & Hw & _) _ _.
    apply Hmono; [done|]. rewrite Hw, Hr.
    destruct r1 as [[|c h]|e]; cbn [falsy]; constructor; [|constructor].
    exists c, h. by left.
  - intros t nl tr url d e Htr _ (_ & _ & Hraise). apply Hmono; [done|].
    destruct Hraise as [[Hw _] | (r1 & r2 & Hr & Hw)].
    + rewrite Hw. constructor.
    + rewrite Hw, Hr.
      destruct r1 as [[|c h]|e1]; cbn [falsy]; constructor; [|constructor].
      exists c, h. by left.
  - done.
  - constructor.
Qed.

End WithPlatform.
End CrawlProperties.

(** ** Edge cases, levels and the worker thread *)

Module MoreCrawlProperties.
Import Scraper Gui Trace Spec Scripted TraceFacts CrawlFacts ControllerFacts PageFacts LoopFacts.

Section WithPlatform.
Context {U : Unicode} {W : Type} {P : Platform W}.

(** X11. With a depth of zero or less [run_scraper] returns 0 and does
    nothing: no level, no render, no file, the world untouched. *)
Theorem no_levels_no_effect start_url keywords (depth : Z) ocr_images log_signal
    (s : State W) :
  (depth <= 0)%Z ->
  run_scraper start_url keywords depth ocr_images log_signal s = (Ok 0%Z, s).
Proof.
  intros Hdepth. unfold run_scraper, range.
  replace (Z.to_nat depth) with 0%nat by lia. reflexivity.
Qed.

(** X13. A level that runs to its end leaves the visited set equal to the
    old one plus every URL of the frontier, and a count that has grown by
    at most the length of the frontier. *)
Theorem level_visits_whole_frontier keywords ocr_images log_signal to_visit :
  forall visited total_files next_links (s s' : State W) visited' total' next_links',
  for_url keywords ocr_images log_signal to_visit visited total_files next_links s
    = (Ok (Completed visited' total' next_links'), s') ->
  visited' = visited ∪ list_to_set to_visit
  /\ (total_files <= total' <= total_files + Z.of_nat (length to_visit))%Z.
Proof.
  induction to_visit as [|url rest IH];
    intros visited total_files next_links s s' visited' total' next_links'.
  - intros [= <- <- <- <-]. cbn. split; [|lia].
    by rewrite (right_id_L ∅ (∪)).
  - destruct (decide (url ∈ visited)) as [Hin|Hnew].
    + rewrite for_url_skip by exact Hin. intros Hrun.
      apply IH in Hrun as [-> Htotal]. cbn [list_to_set length]. split; [|lia].
      apply set_eq. intros x. rewrite !elem_of_union, elem_of_singleton.
      split; [tauto|]. intros [?|[->|?]]; auto.
    + intros Hrun.
      apply for_url_visit in Hrun
        as (d & w1 & pages & _ & _ & _ & Hw & _ & Hnext); [|exact Hnew].
      cbn zeta in Hnext.
      destruct Hnext as [(e & [=] & _) | [([=] & _) | Hrest]].
      apply IH in Hrest as [-> Htotal]. cbn [list_to_set length]. split.
      * apply set_eq. intros x. rewrite !elem_of_union, elem_of_singleton. tauto.
      * destruct Hw as [Hw | Hw]; rewrite Hw in Htotal; cbn [length] in Htotal; lia.
Qed.

(** X9. The OCR loop resolves the image sources one by one and downloads
    each resolved source, in document order.  A failed download, a failed
    OCR or an empty text only costs that image its block: the loop goes on,
    and it returns the texts it was given followed by the blocks of the
    other images.  The loop raises only when [urljoin] rejects a source: it
    ends with that exception, after the downloads of the sources before it
    and without those after it.  It renders no page and writes no file. *)
Theorem ocr_loop_skips_failed_images url log_signal srcs img_texts (s : State W) :
  let resolved := (resolve_all url srcs).1 in
  let pass := ocr_pass resolved (world s) in
  Forall2 (fun src u => urljoin url src = inl u) (take (length resolved) srcs) resolved
  /\ match (resolve_all url srcs).2 with
     | None => length resolved = length srcs
     | Some e => exists src, srcs !! length resolved = Some src
                             /\ urljoin url src = inr e
     end
  /\ exists s',
       for_img url log_signal srcs img_texts s
       = (match (resolve_all url srcs).2 with
          | None => Ok (img_texts ++ pass.1)
          | Some e => Raised e
          end, s')
       /\ world s' = pass.2
       /\ gets (trace s') = gets (trace s) ++ resolved
       /\ renders (trace s') = renders (trace s)
       /\ writes (trace s') = writes (trace s).
Proof.
  cbn zeta. destruct (resolve_all_spec url srcs) as [Hres Herr].
  split_and!; [exact Hres | exact Herr |].
  destruct (for_img_pass url log_signal srcs img_texts s) as (d & Heq & Hq & Hg).
  apply quiet_no_render in Hq as [Hr Hw].
  eexists. split; [exact Heq|]. cbn [world trace].
  rewrite gets_app, renders_app, writes_app, Hg, Hr, Hw, !app_nil_r.
  split_and!; done.
Qed.

(** X10. What [scrape_article] does on a page that renders with markup,
    once the output directory is there.  The file name is the sanitized
    title with the first time stamp; the text is the header with the
    second time stamp and the non-empty paragraphs, followed by an IMAGE
    TEXTS block exactly when the OCR pass over the images of the page gave
    some text.  With OCR off no image is downloaded; with OCR on the
    resolved sources are downloaded in document order.  The call returns
    the path after one write; it raises, without a write, when an image
    source does not resolve or when the write fails. *)
Theorem saved_text_shape (url : pystr) (keywords : list pystr)
    (ocr_images log_signal : bool) (s : State W)
    (w0 : W) (d0 : list Event) (c : N) (h : pystr) (w1 : W)
    (ts : pystr) (w2 : W) (ts' : pystr) (w3 : W) :
  dir_ready (world s) w0 d0 ->
  page_content url w0 = (inl (c :: h), w1) ->
  strftime_now w1 = (ts, w2) ->
  strftime_now w2 = (ts', w3) ->
  let soup := c :: h in
  let srcs := if ocr_images then soup_img_src soup else [] in
  let resolved := (resolve_all url srcs).1 in
  let pass := ocr_pass resolved w3 in
  let filepath := path_join SAVE_DIR (article_filename (page_title soup) ts) in
  let text :=
    with_image_texts
      (article_text (page_title soup) url ts'
         (join nl (List.filter nonempty (soup_p soup))))
      pass.1 in
  let saved := write_text filepath text pass.2 in
  exists d,
    scrape_article url keywords ocr_images log_signal s
    = (match (resolve_all url srcs).2, saved.1 with
       | None, None => Ok (Some filepath)
       | None, Some e => Raised e
       | Some e, _ => Raised e
       end,
       mkState (match (resolve_all url srcs).2 with
                | None => saved.2
                | Some _ => pass.2
                end)
         (trace s ++ d))
    /\ scraped d = [url]
    /\ renders d = [(url, inl soup)]
    /\ gets d = resolved
    /\ writes d = match (resolve_all url srcs).2, saved.1 with
                  | None, None => [(url, filepath, text)]
                  | _, _ => []
                  end.
Proof.
  intros Hdir Hpage Hts Hts' soup srcs resolved pass filepath text saved.
  assert (Hstep : exists q,
    forallb quiet q = true /\ gets q = []
    /\ (tell (EvScrape url) ;;;
        (fun s : State W => if path_exists SAVE_DIR (world s) then ret tt s
                            else os_makedirs SAVE_DIR s))%py s
       = (Ok tt, mkState w0 (trace s ++ EvScrape url :: q))).
  { rewrite bind_unfold. cbn [tell world trace].
    destruct Hdir as [(Hex & -> & ->) | (Hex & Hmk & ->)]; rewrite Hex.
    - exists []. by split_and!.
    - exists [EvMakedirs SAVE_DIR]. split_and!; [done | done |].
      unfold os_makedirs. cbn [world trace]. rewrite Hmk.
      by rewrite <- app_assoc. }
  destruct Hstep as (q & Hq & Hqg & Hstep).
  destruct (quiet_no_render _ Hq) as [Hqr Hqw].
  apply quiet_silent in Hq as (_ & Hqs & _ & _).
  unfold scrape_article.
  rewrite bind_unfold. cbn [tell]. rewrite bind_unfold in Hstep. cbn [tell] in Hstep.
  rewrite bind_unfold.
  match type of Hstep with ?l = _ => 
    match goal with |- context [l] => rewrite Hstep end end.
  rewrite bind_unfold, fetch_page_playwright_spec. cbn [world trace].
  rewrite Hpage. cbn [fst snd markup_of_outcome truthy fetch_report].
  rewrite bind_unfold. unfold get_timestamp at 1. cbn [world trace]. rewrite Hts.
  rewrite bind_unfold. unfold get_timestamp at 1. cbn [world trace]. rewrite Hts'.
  fold soup.
  set (tr0 := (trace s ++ EvScrape url :: q) ++ [EvBrowser url (inl soup)]).
  assert (Hfoot : forall d1 (saved_files : list (pystr * pystr * pystr)),
            forallb quiet d1 = true -> gets d1 = resolved ->
            forall d2, writes d2 = saved_files -> scraped d2 = [] ->
                       renders d2 = [] -> gets d2 = [] ->
            exists d, (tr0 ++ d1) ++ d2 = trace s ++ d
                      /\ scraped d = [url] /\ renders d = [(url, inl soup)]
                      /\ gets d = resolved /\ writes d = saved_files).
  { intros d1 saved_files Hd1 Hg1 d2 Hw2 Hs2 Hr2 Hg2.
    destruct (quiet_no_render _ Hd1) as [Hr1 Hw1].
    apply quiet_silent in Hd1 as (_ & Hs1 & _ & _).
    exists (EvScrape url :: q ++ [EvBrowser url (inl soup)] ++ d1 ++ d2).
    split; [unfold tr0; by rewrite <- !app_assoc|].
    change (EvScrape url :: q ++ [EvBrowser url (inl soup)] ++ d1 ++ d2)
      with ([EvScrape url] ++ q ++ [EvBrowser url (inl soup)] ++ d1 ++ d2).
    rewrite !scraped_app, !renders_app, !gets_app, !writes_app.
    rewrite Hqs, Hqr, Hqg, Hqw, Hs1, Hr1, Hg1, Hw1, Hw2, Hs2, Hr2, Hg2.
    cbn. rewrite !app_nil_r. done. }
  clearbody tr0.
  assert (Hocr : exists d1,
    forallb quiet d1 = true /\ gets d1 = resolved
    /\ (if ocr_images then
          img_texts <- for_img url log_signal (soup_img_src soup) [] ;;
          ret (match img_texts with
               | [] => article_text (page_title soup) url ts'
                         (join nl (List.filter nonempty (soup_p soup)))
               | _ => article_text (page_title soup) url ts'
                        (join nl (List.filter nonempty (soup_p soup)))
                      ++ lit "IMAGE TEXTS:" ++ nl ++ join nl img_texts
               end)
        else ret (article_text (page_title soup) url ts'
                    (join nl (List.filter nonempty (soup_p soup)))))%py
         (mkState w3 tr0)
       = (match (resolve_all url srcs).2 with
          | None => Ok text
          | Some e => Raised e
          end, mkState pass.2 (tr0 ++ d1))).
  { subst text pass resolved srcs. destruct ocr_images.
    - rewrite bind_unfold.
      destruct (for_img_pass url log_signal (soup_img_src soup) [] (mkState w3 tr0))
        as (d1 & Heq & Hd1 & Hg1).
      rewrite Heq. cbn [world trace]. exists d1. split_and!; [done | done |].
      by destruct (resolve_all url (soup_img_src soup)).2.
    - exists []. cbn. by rewrite app_nil_r. }
  destruct Hocr as (d1 & Hd1 & Hg1 & Hocr).
  rewrite bind_unfold, Hocr.
  destruct (resolve_all url srcs).2 as [e|].
  { destruct (Hfoot d1 [] Hd1 Hg1 [] eq_refl eq_refl eq_refl eq_refl)
      as (d & Hd & Hrest).
    rewrite app_nil_r in Hd. exists d. rewrite Hd. done. }
  rewrite bind_unfold. unfold write_file at 1. cbn [world trace].
  fold filepath. fold saved.
  destruct saved as [[e|] w4]; cbn [fst snd].
  { destruct (Hfoot d1 [] Hd1 Hg1 [] eq_refl eq_refl eq_refl eq_refl)
      as (d & Hd & Hrest).
    rewrite app_nil_r in Hd. exists d. rewrite Hd. done. }
  rewrite bind_unfold.
  destruct (Hfoot d1 [(url, filepath, text)] Hd1 Hg1
              ([EvWrite url filepath text]
               ++ [if log_signal then EvEmit (saved_message filepath)
                   else EvPrint (saved_message filepath)]))
    as (d & Hd & Hrest).
  { by destruct log_signal. }
  { by destruct log_signal. }
  { by destruct log_signal. }
  { by destruct log_signal. }
  exists d. rewrite <- Hd. split; [|exact Hrest].
  unfold log. destruct log_signal; cbn [tell ret world trace];
    by rewrite <- !app_assoc.
Qed.

(** X8. [extract_links] resolves the anchors of a page in document order.
    When every anchor resolves, it returns the resolved URLs that begin
    with "http", and the group the page contributes to the frontier holds
    each of them once.  When an anchor does not resolve, it raises the
    exception of the first such anchor, and the page contributes
    nothing. *)
Theorem extract_links_http_or_raises (url soup : pystr) :
  match extract_links url soup with
  | Ok links =>
      (exists resolved,
         Forall2 (fun href link => urljoin url href = inl link)
           (soup_a_href soup) resolved
         /\ links = List.filter starts_with_http resolved)
      /\ NoDup (links_of (url, soup))
      /\ forall link, link ∈ links_of (url, soup) <-> link ∈ links
  | Raised e =>
      (exists k href,
         soup_a_href soup !! k = Some href /\ urljoin url href = inr e
         /\ forall j href', (j < k)%nat -> soup_a_href soup !! j = Some href' ->
              exists link, urljoin url href' = inl link)
      /\ links_of (url, soup) = []
  end.
Proof.
  pose proof (extract_links_cases url soup) as Hcases.
  unfold links_of. cbn [fst snd].
  destruct (extract_links url soup) as [links|e].
  - split_and!; [exact Hcases | apply set_iter_NoDup |].
    intros link. apply set_iter_elem.
  - by split.
Qed.

(** X12. With depth 1 the crawl enters one level and calls
    [scrape_article] on the start URL only; it returns 0 or 1. *)
Theorem depth_one_scrapes_start_only start_url keywords ocr_images log_signal
    (w : W) :
  let result := run (run_scraper start_url keywords 1 ocr_images log_signal) w in
  scraped (trace result.2) = [start_url]
  /\ levels (trace result.2) = [0%Z]
  /\ match result.1 with
     | Ok total_files => total_files = 0%Z \/ total_files = 1%Z
     | Raised _ => True
     end.
Proof.
  cbn zeta. unfold run, run_scraper.
  change (range 1) with [0%Z]. cbn [for_level].
  rewrite bind_unfold. cbn [tell]. rewrite bind_unfold.
  assert (Hlog : exists w1 d1,
    (if log_signal then tell (EvEmit (level_message 0 1)) else ret ())
      (mkState (world (mkState w [])) (trace (mkState w []) ++ [EvLevel 0]))
    = (Ok (), mkState w1 (EvLevel 0 :: d1))
    /\ forallb quiet d1 = true).
  { destruct log_signal; unfold tell, ret; cbn [world trace app];
      eexists _, _; (split; [reflexivity | done]). }
  destruct Hlog as (w1 & d1 & -> & Hq).
  apply quiet_silent in Hq as (Hq1 & Hq2 & _ & _).
  rewrite bind_unfold.
  destruct (for_url _ _ _ [start_url] ∅ 0%Z [] _) as [exit s2] eqn:Hloop.
  apply for_url_visit in Hloop
    as (d & w2 & pages & Hl & Hs & _ & Hw & _ & Hnext); [|apply not_elem_of_empty].
  cbn zeta in Hnext. cbn [trace] in Hnext.
  assert (Hfoot : scraped ((EvLevel 0 :: d1) ++ d) = [start_url]
                  /\ levels ((EvLevel 0 :: d1) ++ d) = [0%Z]).
  { rewrite scraped_app, levels_app, Hl, Hs.
    unfold scraped, levels in *. cbn [omap list_omap]. by rewrite Hq1, Hq2. }
  destruct Hfoot as [Hscr Hlev].
  assert (Hcount : (0 + Z.of_nat (length (written d)) = 0
                    \/ 0 + Z.of_nat (length (written d)) = 1)%Z).
  { destruct Hw as [-> | ->]; cbn; auto. }
  destruct Hnext as [(e & -> & ->) | [(-> & -> & _) | Hrest]]; cbn [fst snd trace].
  - done.
  - done.
  - cbn [for_url ret] in Hrest. injection Hrest as <- <-.
    cbn [for_level ret fst snd trace]. done.
Qed.

(** X17. [ScraperThread.run] never raises.  When the crawl returns, it
    signals 1 if a file was written and 0 otherwise; when the crawl raises,
    it logs the error and signals 0. *)
Theorem thread_reports_written_file url keywords depth (w : W) :
  let crawl := run (run_scraper url keywords depth false true) w in
  run (ScraperThread_run url keywords depth) w
  = match crawl.1 with
    | Ok _ =>
        (Ok (if bool_decide (written (trace crawl.2) = []) then 0%Z else 1%Z),
         crawl.2)
    | Raised e =>
        (Ok 0%Z,
         mkState (world crawl.2)
           (trace crawl.2 ++ [EvEmit (lit "[ERROR] " ++ e ++ nl)]))
    end.
Proof.
  cbn zeta. unfold run at 1. unfold ScraperThread_run, try_except.
  rewrite bind_unfold. fold (run (run_scraper url keywords depth false true) w).
  destruct (run _ w) as [o s'] eqn:Hrun. cbn [fst snd].
  apply run_scraper_consistent in Hrun as (_ & v & t & [_ _ _ _ Htotal] & Ho).
  destruct o as [total|e]; [|reflexivity].
  subst. cbn [ret]. f_equal. f_equal.
  destruct (written (trace s')) as [|u l]; reflexivity.
Qed.
End WithPlatform.
End MoreCrawlProperties.

(** ** Further runs on scripted sites *)

Module MoreRuns.
Import AiUtils Scraper Trace Spec Scripted.
Import MoreUtilsFacts MoreAiUtilsFacts MoreCrawlProperties.

Lemma safe_filename_fixed_witness :
  Utils.safe_filename (U := ascii_only) (lit "report-2024_v1.txt")
  = lit "report-2024_v1.txt".
Proof.
  apply (safe_filename_fixed (U := ascii_only) (lit "report-2024_v1.txt")).
  - by vm_compute.
  - vm_compute. lia.
Defined.

Lemma sentiment_weight_additive_witness :
  sentiment_weight (U := ascii_only) (lit "good day" ++ lit " " ++ lit "bad, sad night")
  = (sentiment_weight (U := ascii_only) (lit "good day")
     + sentiment_weight (U := ascii_only) (lit "bad, sad night"))%Z.
Proof.
  apply (sentiment_weight_additive (U := ascii_only)); by vm_compute.
Defined.

Lemma sentiment_weight_ignores_case_witness :
  sentiment_weight (U := ascii_only) (lit "GOOD Day, Bad luck")
  = sentiment_weight (U := ascii_only) (lit "good day, bad LUCK").
Proof.
  apply (sentiment_weight_ignores_case (U := ascii_only)); by vm_compute.
Defined.

(** A page with two non-empty paragraphs and three images, with OCR on:
    the three images are downloaded, and the one that reads "SALE" gives the
    only block. *)
Lemma saved_text_shape_witness :
  let filepath :=
    path_join SAVE_DIR (article_filename (U := ascii_only) (lit "Page") frozen_clock) in
  exists d,
    scrape_article (U := ascii_only) (P := media_site) start_url [] true true
      (mkState 0%nat [])
    = (Ok (Some filepath), mkState 1%nat d)
    /\ gets d = media_images index_markup
    /\ writes d
       = [(start_url, filepath,
           article_text (lit "Page") start_url frozen_clock
             (lit "First." ++ nl ++ lit "Second.")
           ++ lit "IMAGE TEXTS:" ++ nl
           ++ image_block (lit "http://site/sale.png") (lit "SALE"))].
Proof.
  destruct (saved_text_shape (U := ascii_only) (P := media_site)
              start_url [] true true (mkState 0%nat [])
              0%nat [] (ord "<") (lit "index>") 1%nat
              frozen_clock 1%nat frozen_clock 1%nat)
    as (d & Heq & _ & _ & Hg & Hw).
  - left. split_and!; reflexivity.
  - reflexivity.
  - reflexivity.
  - reflexivity.
  - exists d. split_and!; [exact Heq | exact Hg | exact Hw].
Defined.


Lemma no_levels_no_effect_witness :
  run_scraper (U := ascii_only) (P := wide_flaky_site) start_url [] (-2) true true
    (mkState 0%nat [])
  = (Ok 0%Z, mkState 0%nat []).
Proof.
  apply (no_levels_no_effect (U := ascii_only) (P := wide_flaky_site)). lia.
Defined.

Lemma level_visits_whole_frontier_witness :
  exists visited' total',
    visited' = (∅ : gset pystr) ∪ list_to_set [start_url; link_a; start_url]
    /\ (0 <= total' <= 0 + Z.of_nat 3)%Z.
Proof.
  edestruct (level_visits_whole_frontier (U := ascii_only) (P := bab_site)
               [] false true [start_url; link_a; start_url] ∅ 0%Z []
               (mkState 0%nat []))
    as [Hv Ht]; [vm_compute; reflexivity|].
  eexists _, _. split; [exact Hv | exact Ht].
Defined.

End MoreRuns.
